(** * product-tagger.js: reconciliation of a best-seller sheet against a catalog

    A shallow embedding of [product-tagger.js].  JavaScript strings are
    modelled as [string] (one [ascii] per code unit, so the development
    speaks about ASCII text); a row object is the ordered list of its
    own properties; the catalog service, which the script reaches only
    through [client.request], is a scripted collaborator; [async]
    functions are computations in a state-and-exception monad whose state
    holds the arrays shared by reference, the remote calls and timers
    issued so far, and the console. *)

From Stdlib Require Import String Ascii List Bool Arith Lia.
From stdpp Require Import base option list strings.
Import ListNotations.
Local Open Scope string_scope.
Local Open Scope list_scope.

(** ** JavaScript string primitives used by the script *)

Module JsString.

Definition backslash : ascii := ascii_of_nat 92.
Definition squote : ascii := ascii_of_nat 39.
Definition dquote : ascii := ascii_of_nat 34.

Definition str (c : ascii) : string := String c EmptyString.

(** White space as [String.prototype.trim] sees it, within ASCII:
    TAB, LF, VT, FF, CR and SPACE. *)
Definition isWhiteSpace (c : ascii) : bool :=
  let n := nat_of_ascii c in
  (Nat.leb 9 n && Nat.leb n 13) || Nat.eqb n 32.

Fixpoint trimStart (s : string) : string :=
  match s with
  | EmptyString => EmptyString
  | String c s' => if isWhiteSpace c then trimStart s' else s
  end.

Fixpoint trimEnd (s : string) : string :=
  match s with
  | EmptyString => EmptyString
  | String c s' =>
      match trimEnd s' with
      | EmptyString => if isWhiteSpace c then EmptyString else str c
      | r => String c r
      end
  end.

(** [s.trim()] *)
Definition trim (s : string) : string := trimEnd (trimStart s).

Definition lowerChar (c : ascii) : ascii :=
  let n := nat_of_ascii c in
  if Nat.leb 65 n && Nat.leb n 90 then ascii_of_nat (n + 32) else c.

(** [s.toLowerCase()] *)
Fixpoint toLowerCase (s : string) : string :=
  match s with
  | EmptyString => EmptyString
  | String c s' => String (lowerChar c) (toLowerCase s')
  end.

(** [s.startsWith(pat)] *)
Fixpoint startsWith (s pat : string) {struct pat} : bool :=
  match pat with
  | EmptyString => true
  | String p pat' =>
      match s with
      | EmptyString => false
      | String a s' => Ascii.eqb a p && startsWith s' pat'
      end
  end.

(** [s.includes(sub)] *)
Fixpoint includes (s sub : string) : bool :=
  startsWith s sub ||
  match s with
  | EmptyString => false
  | String _ s' => includes s' sub
  end.

Fixpoint dropChars (n : nat) (s : string) : string :=
  match n, s with
  | O, _ => s
  | S n', String _ s' => dropChars n' s'
  | S _, EmptyString => EmptyString
  end.

(** [s.replace(/c/g, by)] for a pattern that is the single character
    [c]: every occurrence is replaced, left to right. *)
Fixpoint replaceAllChar (c : ascii) (by_ : string) (s : string) : string :=
  match s with
  | EmptyString => EmptyString
  | String a s' =>
      (if Ascii.eqb a c then by_ else str a) +:+ replaceAllChar c by_ s'
  end.

(** [s.replace(pat, by)] for a string pattern: only the first
    occurrence is replaced ([by_] holds no [$] pattern here). *)
Fixpoint replaceFirst (pat by_ : string) (s : string) : string :=
  if startsWith s pat then by_ +:+ dropChars (String.length pat) s
  else match s with
       | EmptyString => EmptyString
       | String a s' => String a (replaceFirst pat by_ s')
       end.

(** Truthiness of a string value: only the empty string is falsy. *)
Definition truthy (s : string) : bool := negb (String.eqb s EmptyString).

(** [parts.join(sep)] *)
Fixpoint join (sep : string) (parts : list string) : string :=
  match parts with
  | [] => EmptyString
  | [p] => p
  | p :: rest => p +:+ sep +:+ join sep rest
  end.

End JsString.
Import JsString.

(** ** Configuration constants *)

Definition TAG_NAME : string := "api-top-seller".
Definition RATE_LIMIT_DELAY : nat := 500.

(** ** Data *)

(** A product read from the sheet: [{ title, vendor, productType }]. *)
Module Row.
Record t : Type := mk { title : string; vendor : string; productType : string }.
End Row.

(** A reference to a JavaScript array of strings living in the heap. *)
Definition loc := nat.

(** The value of a node's [tags] property: an array (held by reference)
    or anything else, which [Array.isArray] rejects. *)
Inductive JsTags : Type :=
| TagsArray (l : loc)
| TagsOther.

(** A node of the search response: [{ id, title, vendor, productType, tags }]. *)
Module Product.
Record t : Type := mk {
  id : string; title : string; vendor : string; productType : string;
  tags : JsTags }.
End Product.

(** ** cleanAndEscape and the search query (findProduct, lines 63-74) *)

(** The three replacements run in the order the source applies them:
    single quotes, double quotes, then backslashes; [trim] comes last. *)
Definition cleanAndEscape (s : string) : string :=
  trim
    (replaceAllChar backslash (str backslash +:+ str backslash)
       (replaceAllChar dquote (str backslash +:+ str dquote)
          (replaceAllChar squote (str backslash +:+ str squote) s))).

(** [`title:"${cleanTitle}"`] *)
Definition searchQueryOf (title : string) : string :=
  "title:" +:+ str dquote +:+ cleanAndEscape title +:+ str dquote.

(** The order the specification words: backslash first, then single
    quote, then double quote, then trim.  Kept beside [cleanAndEscape]
    to compare the two. *)
Definition escapeBackslashFirst (s : string) : string :=
  replaceAllChar dquote (str backslash +:+ str dquote)
    (replaceAllChar squote (str backslash +:+ str squote)
       (replaceAllChar backslash (str backslash +:+ str backslash) s)).

Definition cleanAndEscape_spec (s : string) : string :=
  trim (escapeBackslashFirst s).

(** The receiving end of a quoted literal: the text after the opening
    double quote is read up to the first double quote that no backslash
    protects; a backslash makes the next character literal.  The result
    is the literal and what follows its closing quote, or [None] when
    the literal is never closed. *)
Fixpoint readQuotedFrom (esc : bool) (s : string) : option (string * string) :=
  match s with
  | EmptyString => None
  | String c s' =>
      if esc then
        match readQuotedFrom false s' with
        | Some (lit, rest) => Some (String c lit, rest)
        | None => None
        end
      else if Ascii.eqb c backslash then readQuotedFrom true s'
      else if Ascii.eqb c dquote then Some (EmptyString, s')
      else
        match readQuotedFrom false s' with
        | Some (lit, rest) => Some (String c lit, rest)
        | None => None
        end
  end.

(** The literal in the match position of [title:"..."]. *)
Definition queryLiteral (q : string) : option (string * string) :=
  if startsWith q ("title:" +:+ str dquote)
  then readQuotedFrom false (dropChars 7 q)
  else None.

(** ** The row normalizer (the ['data'] handler, lines 256-290) *)

(** A parsed record: its own properties in [Object.keys] order. *)
Definition RowObj := list (string * string).

Definition Object_keys (row : RowObj) : list string := map fst row.

(** [row[k]] for a property name [k]; [None] is [undefined]. *)
Definition getProp (row : RowObj) (k : string) : option string :=
  match List.find (fun kv => String.eqb (fst kv) k) row with
  | Some kv => Some (snd kv)
  | None => None
  end.

(** [Object.keys(row).find(k => k.toLowerCase().includes(word))] *)
Definition findKey (word : string) (row : RowObj) : option string :=
  List.find (fun k => includes (toLowerCase k) word) (Object_keys row).

(** [key ? row[key] : null]: a key that was not found, or the empty key,
    gives [null]. *)
Definition valueAt (row : RowObj) (key : option string) : option string :=
  match key with
  | Some k => if truthy k then getProp row k else None
  | None => None
  end.

(** [null], [undefined] and the empty string are falsy. *)
Definition truthyValue (v : option string) : bool :=
  match v with
  | Some s => truthy s
  | None => false
  end.

Definition normalizeRow (row : RowObj) : option Row.t :=
  let titleKey := findKey "title" row in
  let vendorKey := findKey "vendor" row in
  let typeKey := findKey "type" row in
  let title := valueAt row titleKey in
  let vendor := valueAt row vendorKey in
  let productType := valueAt row typeKey in
  if truthyValue title && truthyValue vendor && truthyValue productType then
    match title, vendor, productType with
    | Some t, Some v, Some p => Some (Row.mk (trim t) (trim v) (trim p))
    | _, _, _ => None
    end
  else None.

(** The handler itself: a complete row is pushed, any other is skipped. *)
Definition onData (row : RowObj) (products : list Row.t) : list Row.t :=
  match normalizeRow row with
  | Some product => products ++ [product]
  | None => products
  end.

(** The stream of records, handled in order from an empty [products]. *)
Definition readRows (records : list RowObj) : list Row.t :=
  fold_left (fun products row => onData row products) records [].

(** ** The world outside the script *)

(** The value a rejected promise or a [throw] carries.  The handlers of
    the script read [error.message] and [error.response]: on an error
    object both reads succeed (the flag tells whether
    [error.response.errors] is set), on [null] or [undefined] reading a
    property raises a [TypeError]. *)
Inductive JsThrown : Type :=
| JsError (message : string) (graphqlErrors : bool)
| JsNullish.

(** One node of a search response as it travels: [tags] is a JSON array
    ([Some]) or some other JSON value ([None]). *)
Record RawNode : Type := mkRaw {
  raw_id : string; raw_title : string; raw_vendor : string;
  raw_productType : string; raw_tags : option (list string) }.

Inductive SearchReply : Type :=
| SearchResolves (edges : list RawNode)
| SearchRejects (e : JsThrown).

(** An update answers with the messages of its [userErrors]. *)
Inductive UpdateReply : Type :=
| UpdateResolves (userErrors : list string)
| UpdateRejects (e : JsThrown).

(** The catalog service behind [client.request]: what it answers to the
    search query, and to the update of [id] with the full tag list, when
    the request is the [n]-th one of the run. *)
Record Service : Type := mkService {
  onSearch : string -> nat -> SearchReply;
  onUpdate : string -> list string -> nat -> UpdateReply }.

(** Remote calls and timers, in the order they are issued. *)
Inductive Event : Type :=
| EvSearch (searchQuery : string)
| EvUpdate (id : string) (tags : list string)
| EvSleep (ms : nat).

(** Console lines that narrate a decision (dumps of data are left out). *)
Inductive LogLine : Type :=
| LogSearching (searchQuery : string)
| LogFoundExact (id : string)
| LogSimilarOnly (title : string)
| LogNoMatch
| LogApiError (e : JsThrown)
| LogUpdating (id : string)
| LogUpdated (title : string)
| LogUpdateFailed (title message : string)
| LogProcessing (n total : nat) (title : string)
| LogFound (title : string)
| LogTagged (title : string)
| LogNotFound (title : string)
| LogErrorProcessing (title message : string)
| LogProgress (processed total matched tagged : nat)
| LogReportWritten (tagged : bool)
| LogSummary (tagged notFound : nat).

(** One line of a report: [{ gid, title, productType, vendor }]. *)
Module Report.
Record row : Type := mkRow {
  gid : string; title : string; productType : string; vendor : string }.
(** [tagged_products_<stamp>.csv] or [not_found_products_<stamp>.csv];
    the header line is implied, [rows] are the records under it. *)
Inductive kind : Type := Tagged | NotFound.
Record file : Type := mkFile { which : kind; rows : list row }.
End Report.

Record World : Type := mkWorld {
  heap : list (list string);
  requests : nat;
  trace : list Event;
  console : list LogLine;
  files : list Report.file }.

Definition emptyWorld : World := mkWorld [] 0 [] [] [].

(** ** Computations: state and exceptions *)

Inductive Completion (A : Type) : Type :=
| Normal (a : A)
| Throw (e : JsThrown).
Arguments Normal {A} a.
Arguments Throw {A} e.

Definition M (S A : Type) : Type := S -> Completion A * S.

Definition ret {S A} (a : A) : M S A := fun s => (Normal a, s).

Definition bind {S A B} (m : M S A) (k : A -> M S B) : M S B :=
  fun s =>
    match m s with
    | (Normal a, s') => k a s'
    | (Throw e, s') => (Throw e, s')
    end.

Definition throw {S A} (e : JsThrown) : M S A := fun s => (Throw e, s).

(** [try { m } catch (error) { h error }]: whatever [m] did to the state
    before it threw stays done. *)
Definition tryCatch {S A} (m : M S A) (h : JsThrown -> M S A) : M S A :=
  fun s =>
    match m s with
    | (Normal a, s') => (Normal a, s')
    | (Throw e, s') => h e s'
    end.

Definition gets {S A} (f : S -> A) : M S A := fun s => (Normal (f s), s).
Definition modify {S} (f : S -> S) : M S unit := fun s => (Normal tt, f s).

Notation "x <- c1 ;; c2" := (bind c1 (fun x => c2))
  (at level 100, c1 at next level, right associativity).
Notation "c1 ;; c2" := (bind c1 (fun _ => c2))
  (at level 100, right associativity).

(** Reading [e.message] (or [e.response]) of a caught value. *)
Definition TypeError_nullish : JsThrown :=
  JsError "Cannot read properties of undefined" false.

Definition messageOf {S} (e : JsThrown) : M S string :=
  match e with
  | JsError message _ => ret message
  | JsNullish => throw TypeError_nullish
  end.

(** *** Effects on the world *)

Definition log (l : LogLine) : M World unit :=
  modify (fun w => mkWorld (heap w) (requests w) (trace w) (console w ++ [l]) (files w)).

Definition emit (e : Event) : M World unit :=
  modify (fun w => mkWorld (heap w) (requests w) (trace w ++ [e]) (console w) (files w)).

Definition countRequest : M World unit :=
  modify (fun w => mkWorld (heap w) (S (requests w)) (trace w) (console w) (files w)).

Definition setHeap (h : list (list string)) : M World unit :=
  modify (fun w => mkWorld h (requests w) (trace w) (console w) (files w)).

Definition writeFile (f : Report.file) : M World unit :=
  modify (fun w => mkWorld (heap w) (requests w) (trace w) (console w) (files w ++ [f])).

(** A new array: it gets the next free reference. *)
Definition newArray (items : list string) : M World loc :=
  h <- gets heap ;;
  setHeap (h ++ [items]) ;;
  ret (length h).

Definition readArray (l : loc) : M World (list string) :=
  h <- gets heap ;;
  ret (default [] (h !! l)).

(** [arr.push(x)] *)
Definition push (l : loc) (x : string) : M World unit :=
  h <- gets heap ;;
  setHeap (<[l := default [] (h !! l) ++ [x]]> h).

(** [arr.includes(x)] *)
Definition Array_includes (x : string) (arr : list string) : bool :=
  existsb (String.eqb x) arr.

(** [await new Promise(resolve => setTimeout(resolve, ms))] *)
Definition sleep (ms : nat) : M World unit := emit (EvSleep ms).

(** A response is parsed into fresh objects: every [tags] array of it is
    a new array of the heap. *)
Definition parseNode (r : RawNode) : M World Product.t :=
  tags <- match raw_tags r with
          | Some items => l <- newArray items ;; ret (TagsArray l)
          | None => ret TagsOther
          end ;;
  ret (Product.mk (raw_id r) (raw_title r) (raw_vendor r) (raw_productType r) tags).

Fixpoint parseNodes (rs : list RawNode) : M World (list Product.t) :=
  match rs with
  | [] => ret []
  | r :: rest =>
      p <- parseNode r ;;
      ps <- parseNodes rest ;;
      ret (p :: ps)
  end.

(** [client.request(query, { searchQuery })]: [response.products.edges],
    each edge given by its node. *)
Definition requestSearch (svc : Service) (searchQuery : string) : M World (list Product.t) :=
  n <- gets requests ;;
  emit (EvSearch searchQuery) ;;
  countRequest ;;
  match onSearch svc searchQuery n with
  | SearchResolves edges => parseNodes edges
  | SearchRejects e => throw e
  end.

(** [client.request(query, { input: { id, tags } })]:
    [response.productUpdate.userErrors], by their messages. *)
Definition requestUpdate (svc : Service) (id : string) (tags : list string) : M World (list string) :=
  n <- gets requests ;;
  emit (EvUpdate id tags) ;;
  countRequest ;;
  match onUpdate svc id tags n with
  | UpdateResolves userErrors => ret userErrors
  | UpdateRejects e => throw e
  end.

(** ** findProduct (lines 45-113) *)

(** The test inside [edges.filter]. *)
Definition exactMatch (title vendor productType : string) (product : Product.t) : bool :=
  String.eqb (Product.title product) title
  && String.eqb (trim (Product.vendor product)) (trim vendor)
  && String.eqb (trim (Product.productType product)) (trim productType).

Definition findProduct (svc : Service) (title vendor productType : string)
  : M World (option Product.t) :=
  let searchQuery := searchQueryOf title in
  log (LogSearching searchQuery) ;;
  tryCatch
    (edges <- requestSearch svc searchQuery ;;
     if Nat.ltb 0 (length edges) then
       let matches := List.filter (exactMatch title vendor productType) edges in
       match matches with
       | matchedProduct :: _ =>
           log (LogFoundExact (Product.id matchedProduct)) ;;
           ret (Some matchedProduct)
       | [] =>
           log (LogSimilarOnly title) ;;
           ret None
       end
     else
       (log LogNoMatch ;; ret None))
    (fun error =>
       log (LogApiError error) ;;
       (* [error.response?.errors] *)
       match error with
       | JsError _ _ => ret None
       | JsNullish => throw TypeError_nullish
       end).

(** ** updateProductTags (lines 116-165) *)

Definition updateProductTags (svc : Service) (product : Product.t) : M World bool :=
  log (LogUpdating (Product.id product)) ;;
  currentTags <- match Product.tags product with
                 | TagsArray l => ret l
                 | TagsOther => newArray []
                 end ;;
  before <- readArray currentTags ;;
  (if negb (Array_includes TAG_NAME before)
   then push currentTags TAG_NAME
   else ret tt) ;;
  sent <- readArray currentTags ;;
  tryCatch
    (userErrors <- requestUpdate svc (Product.id product) sent ;;
     if Nat.ltb 0 (length userErrors)
     then throw (JsError (join ", " userErrors) false)
     else (log (LogUpdated (Product.title product)) ;; ret true))
    (fun error =>
       message <- messageOf error ;;
       log (LogUpdateFailed (Product.title product) message) ;;
       ret false).

(** ** generateReports (lines 167-239) *)

(** An element of [successfullyTagged]:
    [{ ...shopifyProduct, originalData: product }].  The spread copies
    the node's properties, so [tags] is still the node's own array. *)
Record TaggedProduct : Type := mkTagged {
  shopify : Product.t;
  originalData : Row.t }.

Definition gidPrefix : string := "gid://shopify/Product/".

Definition successData (taggedProducts : list TaggedProduct) : list Report.row :=
  map (fun product =>
         Report.mkRow
           (replaceFirst gidPrefix EmptyString (Product.id (shopify product)))
           (Product.title (shopify product))
           (Product.productType (shopify product))
           (Product.vendor (shopify product)))
      taggedProducts.

Definition notFoundData (notFoundProducts : list Row.t) : list Report.row :=
  map (fun product =>
         Report.mkRow EmptyString (Row.title product)
           (Row.productType product) (Row.vendor product))
      notFoundProducts.

Definition generateReports (taggedProducts : list TaggedProduct)
    (notFoundProducts : list Row.t) : M World unit :=
  (if Nat.ltb 0 (length taggedProducts) then
     writeFile (Report.mkFile Report.Tagged (successData taggedProducts)) ;;
     log (LogReportWritten true)
   else ret tt) ;;
  (if Nat.ltb 0 (length notFoundProducts) then
     writeFile (Report.mkFile Report.NotFound (notFoundData notFoundProducts)) ;;
     log (LogReportWritten false)
   else ret tt) ;;
  log (LogSummary (length taggedProducts) (length notFoundProducts)).

(** ** processTopProducts (lines 242-361) *)

(** The locals of [processTopProducts] that the loop mutates, beside the
    world. *)
Record Run : Type := mkRun {
  world : World;
  processed : nat;
  matched : nat;
  tagged : nat;
  successfullyTagged : list TaggedProduct;
  notFound : list Row.t }.

Definition initialRun (w : World) : Run := mkRun w 0 0 0 [] [].

Definition liftW {A} (m : M World A) : M Run A :=
  fun r =>
    match m (world r) with
    | (c, w') =>
        (c, mkRun w' (processed r) (matched r) (tagged r)
              (successfullyTagged r) (notFound r))
    end.

Definition incProcessed : M Run unit :=
  modify (fun r => mkRun (world r) (S (processed r)) (matched r) (tagged r)
                     (successfullyTagged r) (notFound r)).

Definition incMatched : M Run unit :=
  modify (fun r => mkRun (world r) (processed r) (S (matched r)) (tagged r)
                     (successfullyTagged r) (notFound r)).

Definition incTagged : M Run unit :=
  modify (fun r => mkRun (world r) (processed r) (matched r) (S (tagged r))
                     (successfullyTagged r) (notFound r)).

Definition pushTagged (t : TaggedProduct) : M Run unit :=
  modify (fun r => mkRun (world r) (processed r) (matched r) (tagged r)
                     (successfullyTagged r ++ [t]) (notFound r)).

Definition pushNotFound (product : Row.t) : M Run unit :=
  modify (fun r => mkRun (world r) (processed r) (matched r) (tagged r)
                     (successfullyTagged r) (notFound r ++ [product])).

(** The block under [try] in the loop body. *)
Definition tryBlock (svc : Service) (total : nat) (product : Row.t) : M Run unit :=
  n <- gets processed ;;
  liftW (log (LogProcessing n total (Row.title product))) ;;
  shopifyProduct <- liftW (findProduct svc (Row.title product)
                             (Row.vendor product) (Row.productType product)) ;;
  match shopifyProduct with
  | Some found =>
      incMatched ;;
      liftW (log (LogFound (Row.title product))) ;;
      success <- liftW (updateProductTags svc found) ;;
      if success : bool then
        incTagged ;;
        pushTagged (mkTagged found product) ;;
        liftW (log (LogTagged (Row.title product)))
      else ret tt
  | None =>
      liftW (log (LogNotFound (Row.title product))) ;;
      pushNotFound product
  end ;;
  liftW (sleep RATE_LIMIT_DELAY).

(** The block under [catch (error)]. *)
Definition catchBlock (product : Row.t) (error : JsThrown) : M Run unit :=
  message <- messageOf error ;;
  liftW (log (LogErrorProcessing (Row.title product) message)) ;;
  pushNotFound product.

(** One turn of [for (const product of products)]. *)
Definition processProduct (svc : Service) (total : nat) (product : Row.t) : M Run unit :=
  incProcessed ;;
  tryCatch (tryBlock svc total product) (catchBlock product) ;;
  r <- gets id ;;
  liftW (log (LogProgress (processed r) total (matched r) (tagged r))).

Fixpoint forOf {S A} (items : list A) (body : A -> M S unit) : M S unit :=
  match items with
  | [] => ret tt
  | x :: rest => body x ;; forOf rest body
  end.

(** The loop over the products read, then the reports. *)
Definition reconcile (svc : Service) (products : list Row.t) : M Run unit :=
  if Nat.eqb (length products) 0 then ret tt
  else
    forOf products (processProduct svc (length products)) ;;
    r <- gets id ;;
    liftW (generateReports (successfullyTagged r) (notFound r)).

(** [processTopProducts()], from the records the parser delivers to the
    ['data'] handler (a parse failure rejects before the loop starts and
    is left out). *)
Definition processTopProducts (svc : Service) (records : list RowObj) : M Run unit :=
  reconcile svc (readRows records).

(** A run of the script against [svc]. *)
Definition runScript (svc : Service) (records : list RowObj) : Completion unit * Run :=
  processTopProducts svc records (initialRun emptyWorld).

(** ** Sample data *)

Module Samples.

Definition sheetRow (title vendor productType : string) : RowObj :=
  [("Product title", title); ("Product vendor", vendor); ("Product type", productType)].

Definition widgetA : RawNode :=
  mkRaw "gid://shopify/Product/42" "Widget A" "Acme Co" "Gadgets" (Some ["sale"]).

Definition redMug : RawNode :=
  mkRaw "gid://shopify/Product/7" "Red Mug" "Acme" "Mug" (Some []).

(** A catalog that holds [nodes] and answers a title search with the
    nodes of that title; every update [answer]s the same way. *)
Definition catalog (nodes : list RawNode) (answer : UpdateReply) : Service :=
  mkService
    (fun q _ =>
       SearchResolves
         (List.filter (fun r => String.eqb (searchQueryOf (raw_title r)) q) nodes))
    (fun _ _ _ => answer).

(** A service whose every call is rejected with [e]. *)
Definition failing (e : JsThrown) : Service :=
  mkService (fun _ _ => SearchRejects e) (fun _ _ _ => UpdateRejects e).

Definition obrien : string :=
  "O'Brien's " +:+ str dquote +:+ "Thing" +:+ str dquote.

End Samples.

(** * Vocabulary of the statements *)

(** Closed forms, observations on the world and the reading of the
    console that the lemmas and theorems below are stated with. *)

(** What the backslash-first order makes of one character. *)
Definition escapeChar (a : ascii) : string :=
  if Ascii.eqb a backslash then str backslash +:+ str backslash
  else if Ascii.eqb a squote then str backslash +:+ str squote
  else if Ascii.eqb a dquote then str backslash +:+ str dquote
  else str a.

(** The value under the first header whose lower-case form includes
    [word], as the handler extracts it. *)
Definition located (word : string) (row : RowObj) : option string :=
  valueAt row (findKey word row).

(** The claim of C6 read literally: a row comes out exactly when the
    three located values are present and non-empty once trimmed. *)
Definition nonEmptyAfterTrim (v : option string) : Prop :=
  exists s, v = Some s /\ trim s <> EmptyString.

(** The nodes a response is parsed into when the heap holds [base]
    arrays, and the arrays the parse adds. *)
Fixpoint nodesFrom (base : nat) (rs : list RawNode) : list Product.t :=
  match rs with
  | [] => []
  | r :: rest =>
      match raw_tags r with
      | Some _ =>
          Product.mk (raw_id r) (raw_title r) (raw_vendor r) (raw_productType r)
            (TagsArray base) :: nodesFrom (S base) rest
      | None =>
          Product.mk (raw_id r) (raw_title r) (raw_vendor r) (raw_productType r)
            TagsOther :: nodesFrom base rest
      end
  end.

(** The arrays that parsing [rs] adds to the heap, in order. *)
Fixpoint arraysOf (rs : list RawNode) : list (list string) :=
  match rs with
  | [] => []
  | r :: rest =>
      match raw_tags r with
      | Some items => items :: arraysOf rest
      | None => arraysOf rest
      end
  end.

(** The line [findProduct] prints once the search has answered. *)
Definition searchLine (title : string) (edges matches : list Product.t) : LogLine :=
  match edges with
  | [] => LogNoMatch
  | _ :: _ =>
      match matches with
      | m :: _ => LogFoundExact (Product.id m)
      | [] => LogSimilarOnly title
      end
  end.

(** The tag list with the marker tag ensured: unchanged when the tag is
    there, the tag appended once when it is not. *)
Definition ensureTag (ts : list string) : list string :=
  if Array_includes TAG_NAME ts then ts else ts ++ [TAG_NAME].

(** How [updateProductTags] completes on each answer of the service. *)
Definition updateCompletion (reply : UpdateReply) : Completion bool :=
  match reply with
  | UpdateResolves [] => Normal true
  | UpdateResolves (_ :: _) => Normal false
  | UpdateRejects (JsError _ _) => Normal false
  | UpdateRejects JsNullish => Throw TypeError_nullish
  end.

(** The console line that goes with that completion. *)
Definition updateLines (title : string) (reply : UpdateReply) : list LogLine :=
  match reply with
  | UpdateResolves [] => [LogUpdated title]
  | UpdateResolves (e :: es) => [LogUpdateFailed title (join ", " (e :: es))]
  | UpdateRejects (JsError message _) => [LogUpdateFailed title message]
  | UpdateRejects JsNullish => []
  end.

(** The world after the update request for [product] was sent with the
    tag list [sent], the heap being [h] by then. *)
Definition afterUpdate (svc : Service) (product : Product.t) (w : World)
    (h : list (list string)) (sent : list string) : Completion bool * World :=
  let reply := onUpdate svc (Product.id product) sent (requests w) in
  (updateCompletion reply,
   mkWorld h (S (requests w))
     (trace w ++ [EvUpdate (Product.id product) sent])
     ((console w ++ [LogUpdating (Product.id product)])
        ++ updateLines (Product.title product) reply)
     (files w)).

(** Symbolic execution of the monadic code of [updateProductTags]. *)
Ltac run_js :=
  cbv [updateProductTags bind ret throw tryCatch gets modify log emit
       countRequest setHeap newArray readArray push afterUpdate];
  cbn [heap requests trace console files].

(** The three tests a candidate must pass, against the row's fields. *)
Definition agrees (title vendor productType : string)
    (title' vendor' productType' : string) : Prop :=
  title' = title /\ trim vendor' = trim vendor /\ trim productType' = trim productType.

(** The tag list [updateProductTags] starts from: the entry's own array
    when [tags] is one, a new empty array otherwise. *)
Definition currentTags (w : World) (product : Product.t) : option (list string) :=
  match Product.tags product with
  | TagsArray l => heap w !! l
  | TagsOther => Some []
  end.

(** The files one call of [generateReports] writes. *)
Definition reportsOf (taggedProducts : list TaggedProduct)
    (notFoundProducts : list Row.t) : list Report.file :=
  match taggedProducts with
  | [] => []
  | _ :: _ => [Report.mkFile Report.Tagged (successData taggedProducts)]
  end ++
  match notFoundProducts with
  | [] => []
  | _ :: _ => [Report.mkFile Report.NotFound (notFoundData notFoundProducts)]
  end.

(** How a row ends, as the console tells it: [Tagged: ...],
    [Failed to update tags ...], [Not found: ...] or
    [Error processing ...]. *)
Inductive Fate : Type := FTagged | FTagFailed | FNotFound | FErrored.

Definition fateOf (l : LogLine) : option Fate :=
  match l with
  | LogTagged _ => Some FTagged
  | LogUpdateFailed _ _ => Some FTagFailed
  | LogNotFound _ => Some FNotFound
  | LogErrorProcessing _ _ => Some FErrored
  | _ => None
  end.

(** The fates of the rows processed so far, in order. *)
Definition fates (w : World) : list Fate := omap fateOf (console w).

(** Timers among the events. *)
Definition isSleep (e : Event) : bool :=
  match e with
  | EvSleep _ => true
  | _ => false
  end.

(** The pacing waits so far. *)
Definition pauses (w : World) : list Event := List.filter isSleep (trace w).

(** The fates that put the row in the tagged ledger, in the not-found
    ledger, that are followed by the pacing wait, and the fate of a
    failed tag update. *)
Definition inTagged (f : Fate) : bool :=
  match f with FTagged => true | _ => false end.

Definition inNotFound (f : Fate) : bool :=
  match f with FNotFound | FErrored => true | _ => false end.

Definition paced (f : Fate) : bool :=
  match f with FErrored => false | _ => true end.

Definition tagFailed (f : Fate) : bool :=
  match f with FTagFailed => true | _ => false end.

(** The rows whose fate satisfies [sel], in order. *)
Definition rowsWith (sel : Fate -> bool) (rows : list Row.t) (fs : list Fate)
  : list Row.t :=
  map fst (List.filter (fun x => sel (snd x)) (combine rows fs)).

(** Symbolic execution of one turn of the loop. *)
Ltac run_driver :=
  cbv [processProduct tryBlock catchBlock bind ret throw tryCatch gets modify
       liftW incProcessed incMatched incTagged pushTagged pushNotFound log emit
       sleep messageOf id TypeError_nullish];
  cbn [world processed matched tagged successfullyTagged notFound
       heap requests trace console files fst snd].

Ltac norm_world :=
  unfold fates, pauses in *;
  cbn [world processed matched tagged successfullyTagged notFound
       heap requests trace console files fst snd] in *.

(** * The time stamp of the report names (generateReports, lines 180-183) *)

(** [s.split(sep)] for a non-empty separator string: the pieces between
    the occurrences of [sep], found left to right.  [skip] counts the
    characters of a matched separator still to pass over and [cur] is
    the piece being read. *)
Fixpoint splitGo (sep : string) (skip : nat) (cur : string) (s : string)
  : list string :=
  match s with
  | EmptyString => [cur]
  | String c s' =>
      match skip with
      | S k => splitGo sep k cur s'
      | O =>
          if startsWith s sep
          then cur :: splitGo sep (String.length sep - 1) EmptyString s'
          else splitGo sep O (cur +:+ str c) s'
      end
  end.

Definition split (sep : string) (s : string) : list string :=
  splitGo sep O EmptyString s.

(** An element bound by array destructuring, as a template literal
    prints it: a missing one is [undefined]. *)
Definition templated (parts : list string) (i : nat) : string :=
  nth i parts "undefined".

(** [formattedTimestamp], from the string [toLocaleString] gave.  When
    that string holds no [", "], [time] is [undefined] and [time.split]
    throws. *)
Definition formattedTimestamp (easternTime : string) : Completion string :=
  match split ", " easternTime with
  | date :: time :: _ =>
      let dateParts := split "/" date in
      let timeParts := split ":" time in
      Normal (templated dateParts 2 +:+ "-" +:+ templated dateParts 0 +:+ "-"
              +:+ templated dateParts 1 +:+ "_" +:+ templated timeParts 0
              +:+ "-" +:+ templated timeParts 1)
  | _ => Throw TypeError_nullish
  end.

(** * Further vocabulary *)

(** A header that holds one of the three words the handler looks for. *)
Definition keywordHeader (h : string) : bool :=
  includes (toLowerCase h) "title"
  || includes (toLowerCase h) "vendor"
  || includes (toLowerCase h) "type".

(** No single quote, double quote or backslash. *)
Fixpoint plainText (s : string) : bool :=
  match s with
  | EmptyString => true
  | String c s' =>
      negb (Ascii.eqb c squote) && negb (Ascii.eqb c dquote)
      && negb (Ascii.eqb c backslash) && plainText s'
  end.

(** Decimal digits only. *)
Fixpoint digits (s : string) : bool :=
  match s with
  | EmptyString => true
  | String c s' =>
      Nat.leb 48 (nat_of_ascii c) && Nat.leb (nat_of_ascii c) 57 && digits s'
  end.

(** The fields of an entry that survive parsing. *)
Definition entryFields (e : Product.t) : string * string * string * string :=
  (Product.id e, Product.title e, Product.vendor e, Product.productType e).

Definition rawFields (r : RawNode) : string * string * string * string :=
  (raw_id r, raw_title r, raw_vendor r, raw_productType r).

(** The searches and the updates among the events. *)
Definition isSearch (e : Event) : bool :=
  match e with
  | EvSearch _ => true
  | _ => false
  end.

Definition isUpdate (e : Event) : bool :=
  match e with
  | EvUpdate _ _ => true
  | _ => false
  end.

(** An update request that carries the marker tag. *)
Definition updateCarriesTag (e : Event) : Prop :=
  match e with
  | EvUpdate _ tags => In TAG_NAME tags
  | _ => True
  end.

(** The tag array of a ledger entry, read in the heap [h], holds the
    marker tag. *)
Definition taggedInHeap (h : list (list string)) (t : TaggedProduct) : Prop :=
  match Product.tags (shopify t) with
  | TagsArray l => exists ts, h !! l = Some ts /\ In TAG_NAME ts
  | TagsOther => True
  end.

(** The search issued for a row. *)
Definition searchFor (product : Row.t) : Event :=
  EvSearch (searchQueryOf (Row.title product)).

(** A service that never rejects a call with [null] or [undefined]. *)
Definition neverNullish (svc : Service) : Prop :=
  (forall q n, onSearch svc q n <> SearchRejects JsNullish)
  /\ (forall i tags n, onUpdate svc i tags n <> UpdateRejects JsNullish).

(** A service with nothing to answer: every search is rejected with an
    error object or resolves with no entry. *)
Definition noAnswer (svc : Service) : Prop :=
  forall q n,
    (exists m g, onSearch svc q n = SearchRejects (JsError m g))
    \/ onSearch svc q n = SearchResolves [].

(** The character [c] does not occur in [s]. *)
Fixpoint lacks (c : ascii) (s : string) : bool :=
  match s with
  | EmptyString => true
  | String a s' => negb (Ascii.eqb a c) && lacks c s'
  end.

(** At most one header of the record holds [word]. *)
Definition oneHeaderFor (word : string) (row : RowObj) : Prop :=
  forall h1 h2,
    In h1 (Object_keys row) -> In h2 (Object_keys row) ->
    includes (toLowerCase h1) word = true ->
    includes (toLowerCase h2) word = true ->
    h1 = h2.

(** * The calls of one turn of the loop *)

(** What [findProduct] gives for [product] in the turn that starts in
    state [r]: the call is made once the [Processing] line is printed. *)
Definition matchOf (svc : Service) (total : nat) (product : Row.t) (r : Run)
  : Completion (option Product.t) * World :=
  findProduct svc (Row.title product) (Row.vendor product) (Row.productType product)
    (snd (log (LogProcessing (S (processed r)) total (Row.title product)) (world r))).

(** What [updateProductTags] gives for the entry [found] of that turn:
    the call is made once the [Found] line is printed. *)
Definition updateOf (svc : Service) (total : nat) (product : Row.t) (r : Run)
    (found : Product.t) : Completion bool * World :=
  updateProductTags svc found
    (snd (log (LogFound (Row.title product)) (snd (matchOf svc total product r)))).

(** The terminal state of the row, read off what the two calls return. *)
Definition rowFate (svc : Service) (total : nat) (product : Row.t) (r : Run) : Fate :=
  match fst (matchOf svc total product r) with
  | Normal None => FNotFound
  | Throw _ => FErrored
  | Normal (Some found) =>
      match fst (updateOf svc total product r found) with
      | Normal true => FTagged
      | Normal false => FTagFailed
      | Throw _ => FErrored
      end
  end.

(** The terminal states of the rows [items], processed in order from
    state [r]. *)
Fixpoint loopFates (svc : Service) (total : nat) (items : list Row.t) (r : Run)
  : list Fate :=
  match items with
  | [] => []
  | product :: rest =>
      rowFate svc total product r
      :: loopFates svc total rest (snd (processProduct svc total product r))
  end.


(** * Properties *)

(** ** Escaping *)

Section Escaping.

Local Arguments String.append !_ _ / : simpl nomatch.

Lemma append_assoc (s1 s2 s3 : string) :
  (s1 +:+ s2) +:+ s3 = s1 +:+ (s2 +:+ s3).
Proof.
  induction s1 as [|a s1 IH]; [reflexivity|].
  change (String a ((s1 +:+ s2) +:+ s3) = String a (s1 +:+ (s2 +:+ s3))).
  now rewrite IH.
Qed.

Lemma replaceAllChar_app c b s1 s2 :
  replaceAllChar c b (s1 +:+ s2) = replaceAllChar c b s1 +:+ replaceAllChar c b s2.
Proof.
  induction s1 as [|a s1 IH]; [reflexivity|].
  cbn [String.append replaceAllChar].
  rewrite IH. destruct (Ascii.eqb a c).
  - now rewrite append_assoc.
  - reflexivity.
Qed.

Lemma escapeBackslashFirst_cons a s :
  escapeBackslashFirst (String a s) = escapeChar a +:+ escapeBackslashFirst s.
Proof.
  unfold escapeBackslashFirst, escapeChar. cbn [replaceAllChar].
  rewrite !replaceAllChar_app.
  destruct (Ascii.eqb_spec a backslash) as [->|Hb]; [reflexivity|].
  cbn [str replaceAllChar String.append].
  destruct (Ascii.eqb_spec a squote) as [->|Hs]; [reflexivity|].
  cbn [str replaceAllChar String.append].
  destruct (Ascii.eqb_spec a dquote) as [->|Hd]; reflexivity.
Qed.

(** With backslashes escaped first, the reader of the quoted literal
    gives back exactly the text that was escaped. *)
Lemma readQuoted_escapeBackslashFirst s rest :
  readQuotedFrom false (escapeBackslashFirst s +:+ String dquote rest) = Some (s, rest).
Proof.
  induction s as [|a s IH].
  - reflexivity.
  - rewrite escapeBackslashFirst_cons. unfold escapeChar.
    destruct (Ascii.eqb_spec a backslash) as [->|Hb].
    { cbn. cbn in IH. now rewrite IH. }
    destruct (Ascii.eqb_spec a squote) as [->|Hs].
    { cbn. cbn in IH. now rewrite IH. }
    destruct (Ascii.eqb_spec a dquote) as [->|Hd].
    { cbn. cbn in IH. now rewrite IH. }
    cbn [str String.append readQuotedFrom].
    destruct (Ascii.eqb_spec a backslash); [contradiction|].
    destruct (Ascii.eqb_spec a dquote); [contradiction|].
    now rewrite IH.
Qed.

End Escaping.

(** C2. The claim asks for backslashes to be escaped first, so that the
    backslash put before a quote is not escaped again and the quoted
    query reads back as the title.  [cleanAndEscape] escapes them last:
    on the title O'Brien's "Thing" every quote ends up behind two
    backslashes, the literal read back from the query stops at the first
    double quote and differs from the title, while the backslash-first
    order reads back as the title. *)
Theorem cleanAndEscape_escapes_backslash_last :
  cleanAndEscape Samples.obrien
    = "O\\'Brien\\'s \\" +:+ str dquote +:+ "Thing\\" +:+ str dquote
  /\ queryLiteral (searchQueryOf Samples.obrien)
    = Some ("O\'Brien\'s \", "Thing\\" +:+ str dquote +:+ str dquote)
  /\ queryLiteral (searchQueryOf Samples.obrien) <> Some (Samples.obrien, EmptyString)
  /\ cleanAndEscape_spec Samples.obrien
    = "O\'Brien\'s \" +:+ str dquote +:+ "Thing\" +:+ str dquote
  /\ readQuotedFrom false (cleanAndEscape_spec Samples.obrien +:+ str dquote)
    = Some (Samples.obrien, EmptyString).
Proof.
  repeat split; try reflexivity.
  vm_compute. discriminate.
Qed.

(** ** The row normalizer *)

Lemma truthy_true_iff s : truthy s = true <-> s <> EmptyString.
Proof.
  unfold truthy. destruct (String.eqb_spec s EmptyString); simpl; split; intros; congruence.
Qed.

Lemma normalizeRow_some row r :
  normalizeRow row = Some r <->
  exists t v p,
    located "title" row = Some t /\ located "vendor" row = Some v
    /\ located "type" row = Some p
    /\ t <> EmptyString /\ v <> EmptyString /\ p <> EmptyString
    /\ r = Row.mk (trim t) (trim v) (trim p).
Proof.
  unfold normalizeRow, located.
  destruct (valueAt row (findKey "title" row)) as [t|];
    destruct (valueAt row (findKey "vendor" row)) as [v|];
    destruct (valueAt row (findKey "type" row)) as [p|]; simpl;
    try (rewrite ?andb_false_r; split;
         [discriminate | intros (?&?&?&?&?&?&_); discriminate]).
  destruct (truthy t) eqn:Ht; destruct (truthy v) eqn:Hv;
    destruct (truthy p) eqn:Hp; simpl.
  1:{ apply truthy_true_iff in Ht, Hv, Hp. split.
      - intros [= <-]. exists t, v, p. repeat split; assumption.
      - intros (t'&v'&p'&[= <-]&[= <-]&[= <-]&_&_&_&->). reflexivity. }
  all: split; [discriminate|];
    intros (t'&v'&p'&[= <-]&[= <-]&[= <-]&Ht'&Hv'&Hp'&_);
    apply truthy_true_iff in Ht', Hv', Hp'; congruence.
Qed.

Lemma readRows_from records acc :
  fold_left (fun products row => onData row products) records acc
  = acc ++ omap normalizeRow records.
Proof.
  revert acc. induction records as [|row records IH]; intros acc; simpl.
  - now rewrite app_nil_r.
  - rewrite IH. unfold onData. destruct (normalizeRow row); simpl.
    + now rewrite <- app_assoc.
    + reflexivity.
Qed.

Lemma readRows_omap records : readRows records = omap normalizeRow records.
Proof. unfold readRows. now rewrite readRows_from. Qed.

(** C10. Each of the three headers is looked up on its own, and nothing
    asks the three to differ: when the first header holds both "title"
    and "type", that one header is the title key and the type key, and
    the row that comes out has the one cell as title and as product
    type.  Such a row exists. *)
Theorem normalizeRow_header_shared :
  (forall (h cell : string) (rest : RowObj) (r : Row.t),
      includes (toLowerCase h) "title" = true ->
      includes (toLowerCase h) "type" = true ->
      normalizeRow ((h, cell) :: rest) = Some r ->
      findKey "title" ((h, cell) :: rest) = Some h
      /\ findKey "type" ((h, cell) :: rest) = Some h
      /\ Row.title r = trim cell /\ Row.productType r = trim cell)
  /\ (exists (row : RowObj) (h : string) (r : Row.t),
        findKey "title" row = Some h /\ findKey "type" row = Some h
        /\ findKey "vendor" row <> Some h
        /\ normalizeRow row = Some r
        /\ Row.title r = Row.productType r).
Proof.
  split.
  - intros h cell rest r Ht Hy Hr.
    assert (Hkt : findKey "title" ((h, cell) :: rest) = Some h)
      by (unfold findKey; simpl; now rewrite Ht).
    assert (Hky : findKey "type" ((h, cell) :: rest) = Some h)
      by (unfold findKey; simpl; now rewrite Hy).
    apply normalizeRow_some in Hr as (t&v&p&Lt&_&Lp&_&_&_&->).
    unfold located in Lt, Lp. rewrite Hkt in Lt. rewrite Hky in Lp.
    unfold valueAt, getProp in Lt, Lp. simpl in Lt, Lp.
    rewrite String.eqb_refl in Lt, Lp. simpl in Lt, Lp.
    destruct (truthy h); [|discriminate].
    injection Lt as <-. injection Lp as <-. auto.
  - exists [("Title / Type", "Red Mug"); ("Vendor", "Acme")], "Title / Type",
      (Row.mk "Red Mug" "Acme" "Red Mug").
    repeat split; try reflexivity. vm_compute. discriminate.
Qed.

(** C6, as stated, fails: a cell of two spaces is a non-empty value, so
    the row is kept, and its title is the empty string. *)
Lemma normalizeRow_keeps_blank_cell :
  ~ (forall row : RowObj,
        is_Some (normalizeRow row) <->
        nonEmptyAfterTrim (located "title" row)
        /\ nonEmptyAfterTrim (located "vendor" row)
        /\ nonEmptyAfterTrim (located "type" row)).
Proof.
  intros H.
  destruct (H [("Title", "  "); ("Vendor", "Acme"); ("Type", "Mug")]) as [H1 _].
  destruct H1 as [(s&Hs&Hne) _].
  - eexists. reflexivity.
  - vm_compute in Hs. injection Hs as <-. apply Hne. reflexivity.
Qed.

(** ** What one call does to the world *)

Lemma parseNodes_eq rs w :
  parseNodes rs w
  = (Normal (nodesFrom (length (heap w)) rs),
     mkWorld (heap w ++ arraysOf rs) (requests w) (trace w) (console w) (files w)).
Proof.
  revert w. induction rs as [|r rest IH]; intros w.
  - simpl. unfold ret. rewrite app_nil_r. now destruct w.
  - cbn [parseNodes nodesFrom arraysOf]. unfold bind at 1. unfold parseNode.
    destruct (raw_tags r) as [items|].
    + unfold bind at 1. unfold bind at 1. unfold newArray, setHeap, gets, modify, bind, ret.
      cbn -[parseNodes]. rewrite IH. cbn.
      rewrite length_app, Nat.add_1_r, <- app_assoc. reflexivity.
    + unfold bind at 1. unfold ret at 1. unfold ret at 1. unfold bind at 1.
      rewrite IH. reflexivity.
Qed.

Lemma nodesFrom_length base rs : length (nodesFrom base rs) = length rs.
Proof.
  revert base. induction rs as [|r rest IH]; intros base; simpl; [reflexivity|].
  destruct (raw_tags r); simpl; now rewrite IH.
Qed.

Lemma findProduct_resolves svc title vendor productType w raw :
  onSearch svc (searchQueryOf title) (requests w) = SearchResolves raw ->
  let edges := nodesFrom (length (heap w)) raw in
  let matches := List.filter (exactMatch title vendor productType) edges in
  findProduct svc title vendor productType w
  = (Normal (head matches),
     mkWorld (heap w ++ arraysOf raw) (S (requests w))
       (trace w ++ [EvSearch (searchQueryOf title)])
       ((console w ++ [LogSearching (searchQueryOf title)])
          ++ [searchLine title edges matches])
       (files w)).
Proof.
  intros Hs. cbv zeta.
  unfold findProduct, requestSearch, tryCatch, bind, log, emit, countRequest,
    gets, modify, ret. cbn [heap requests trace console files].
  rewrite Hs, parseNodes_eq. cbn [heap requests trace console files].
  destruct (nodesFrom (length (heap w)) raw) as [|e0 edges']; [reflexivity|].
  cbn [length Nat.ltb Nat.leb].
  destruct (List.filter (exactMatch title vendor productType) (e0 :: edges'));
    reflexivity.
Qed.

Lemma findProduct_rejects svc title vendor productType w e :
  onSearch svc (searchQueryOf title) (requests w) = SearchRejects e ->
  findProduct svc title vendor productType w
  = (match e with
     | JsError _ _ => Normal None
     | JsNullish => Throw TypeError_nullish
     end,
     mkWorld (heap w) (S (requests w))
       (trace w ++ [EvSearch (searchQueryOf title)])
       ((console w ++ [LogSearching (searchQueryOf title)]) ++ [LogApiError e])
       (files w)).
Proof.
  intros Hs.
  unfold findProduct, requestSearch, tryCatch, bind, log, emit, countRequest,
    gets, modify, ret, throw. cbn [heap requests trace console files].
  rewrite Hs. destruct e; reflexivity.
Qed.

Lemma Array_includes_app_self x ts : Array_includes x (ts ++ [x]) = true.
Proof.
  unfold Array_includes. rewrite existsb_app. simpl.
  rewrite String.eqb_refl. now rewrite orb_true_r.
Qed.

Lemma ensureTag_includes ts : Array_includes TAG_NAME (ensureTag ts) = true.
Proof.
  unfold ensureTag. destruct (Array_includes TAG_NAME ts) eqn:E; [exact E|].
  apply Array_includes_app_self.
Qed.

Lemma ensureTag_idempotent ts : ensureTag (ensureTag ts) = ensureTag ts.
Proof. unfold ensureTag at 1. now rewrite ensureTag_includes. Qed.

Lemma updateProductTags_rest svc product w h sent :
  tryCatch
    (userErrors <- requestUpdate svc (Product.id product) sent ;;
     if Nat.ltb 0 (length userErrors)
     then throw (JsError (join ", " userErrors) false)
     else (log (LogUpdated (Product.title product)) ;; ret true))
    (fun error =>
       message <- messageOf error ;;
       log (LogUpdateFailed (Product.title product) message) ;;
       ret false)
    (mkWorld h (requests w) (trace w)
       (console w ++ [LogUpdating (Product.id product)]) (files w))
  = afterUpdate svc product w h sent.
Proof.
  unfold afterUpdate, requestUpdate, tryCatch, bind, log, emit, countRequest,
    gets, modify, ret, throw, messageOf.
  cbn [heap requests trace console files].
  destruct (onUpdate svc (Product.id product) sent (requests w)) as [[|e es]|[m f|]];
    cbn; rewrite ?app_nil_r; reflexivity.
Qed.

Lemma updateProductTags_array svc product l ts w :
  Product.tags product = TagsArray l ->
  heap w !! l = Some ts ->
  updateProductTags svc product w
  = afterUpdate svc product w (<[l := ensureTag ts]> (heap w)) (ensureTag ts).
Proof.
  intros Ht Hl. rewrite <- updateProductTags_rest.
  assert (Hlt : l < length (heap w)) by (eapply lookup_lt_Some; exact Hl).
  run_js. rewrite Ht. run_js. rewrite Hl.
  change (default [] (Some ts)) with ts.
  unfold ensureTag. destruct (Array_includes TAG_NAME ts) eqn:Hin; cbn [negb].
  - run_js. rewrite Hl. change (default [] (Some ts)) with ts.
    rewrite list_insert_id by exact Hl. reflexivity.
  - run_js. rewrite Hl. change (default [] (Some ts)) with ts.
    rewrite list_lookup_insert_eq by exact Hlt. reflexivity.
Qed.

Lemma updateProductTags_other svc product w :
  Product.tags product = TagsOther ->
  updateProductTags svc product w
  = afterUpdate svc product w (heap w ++ [[TAG_NAME]]) [TAG_NAME].
Proof.
  intros Ht. rewrite <- updateProductTags_rest.
  assert (Hnew : forall (h : list (list string)) (x : list string),
             (h ++ [x]) !! length h = Some x).
  { intros h x. rewrite lookup_app_r by lia. now rewrite Nat.sub_diag. }
  run_js. rewrite Ht. run_js. rewrite Hnew.
  change (default [] (Some [])) with (@nil string).
  cbn [Array_includes existsb negb]. run_js. rewrite Hnew.
  change (default [] (Some [])) with (@nil string).
  rewrite insert_app_r_alt by lia. rewrite Nat.sub_diag.
  cbn [insert list_insert app]. rewrite Hnew.
  reflexivity.
Qed.

(** A reference that points outside the heap reads as an empty array
    and [push] on it changes nothing. *)
Lemma updateProductTags_dangling svc product l w :
  Product.tags product = TagsArray l ->
  heap w !! l = None ->
  updateProductTags svc product w = afterUpdate svc product w (heap w) [].
Proof.
  intros Ht Hl. rewrite <- updateProductTags_rest.
  assert (Hge : length (heap w) <= l) by (apply lookup_ge_None; exact Hl).
  run_js. rewrite Ht. run_js. rewrite Hl.
  change (default [] None) with (@nil string).
  cbn [Array_includes existsb negb]. run_js. rewrite Hl.
  rewrite list_insert_ge by exact Hge. rewrite Hl. reflexivity.
Qed.

Lemma updateProductTags_frame svc product w :
  exists h sent, updateProductTags svc product w = afterUpdate svc product w h sent.
Proof.
  destruct (Product.tags product) as [l|] eqn:Ht.
  - destruct (heap w !! l) as [ts|] eqn:Hl.
    + eexists _, _. eapply updateProductTags_array; eassumption.
    + eexists _, _. eapply updateProductTags_dangling; eassumption.
  - eexists _, _. now apply updateProductTags_other.
Qed.

(** ** The matcher *)

Lemma exactMatch_agrees title vendor productType e :
  exactMatch title vendor productType e = true <->
  agrees title vendor productType
    (Product.title e) (Product.vendor e) (Product.productType e).
Proof.
  unfold exactMatch, agrees. rewrite !andb_true_iff, !String.eqb_eq. tauto.
Qed.

(** A parsed node carries the fields of the entry it was parsed from. *)
Lemma nodesFrom_In base raw e :
  In e (nodesFrom base raw) ->
  exists r, In r raw /\ Product.id e = raw_id r /\ Product.title e = raw_title r
            /\ Product.vendor e = raw_vendor r
            /\ Product.productType e = raw_productType r.
Proof.
  revert base. induction raw as [|r raw IH]; intros base; simpl; [tauto|].
  destruct (raw_tags r); simpl; (intros [<-|H]; [exists r; simpl; auto 6|]);
    apply IH in H as (r'&?&?); exists r'; simpl; auto.
Qed.

Lemma nodesFrom_In_raw base raw r :
  In r raw ->
  exists e, In e (nodesFrom base raw) /\ Product.title e = raw_title r
            /\ Product.vendor e = raw_vendor r
            /\ Product.productType e = raw_productType r.
Proof.
  revert base. induction raw as [|r0 raw IH]; intros base; simpl; [tauto|].
  intros [->|H].
  - destruct (raw_tags r); eexists; (split; [left; reflexivity|]); simpl; auto.
  - destruct (raw_tags r0);
      (edestruct IH as (e&?&?); [exact H|]); exists e; simpl; eauto.
Qed.

Lemma head_filter_Some {A} (f : A -> bool) l x :
  head (List.filter f l) = Some x -> In x l /\ f x = true.
Proof.
  induction l as [|a l IH]; simpl; [discriminate|].
  destruct (f a) eqn:E; simpl.
  - intros [= <-]. auto.
  - intros H. apply IH in H as [? ?]. auto.
Qed.

Lemma head_filter_None {A} (f : A -> bool) l :
  head (List.filter f l) = None <-> forall x, In x l -> f x = false.
Proof.
  induction l as [|a l IH]; simpl; [tauto|].
  destruct (f a) eqn:E; simpl.
  - split; [discriminate|]. intros H. specialize (H a (or_introl eq_refl)). congruence.
  - rewrite IH. split.
    + intros H x [<-|Hx]; auto.
    + intros H x Hx. auto.
Qed.

(** C3. Whatever the search answers, the entry [findProduct] returns is
    one of the answered entries and agrees with the row on the title
    (as given) and on vendor and product type (both sides trimmed); and
    [findProduct] returns nothing exactly when no answered entry passes
    all three tests, also when entries were answered. *)
Theorem findProduct_exact_filter svc title vendor productType w raw :
  onSearch svc (searchQueryOf title) (requests w) = SearchResolves raw ->
  (forall e,
      fst (findProduct svc title vendor productType w) = Normal (Some e) ->
      (exists r, In r raw /\ Product.id e = raw_id r /\ Product.title e = raw_title r
                 /\ Product.vendor e = raw_vendor r
                 /\ Product.productType e = raw_productType r)
      /\ agrees title vendor productType
           (Product.title e) (Product.vendor e) (Product.productType e))
  /\ (fst (findProduct svc title vendor productType w) = Normal None <->
      forall r, In r raw ->
        ~ agrees title vendor productType
            (raw_title r) (raw_vendor r) (raw_productType r)).
Proof.
  intros Hs. rewrite (findProduct_resolves _ _ _ _ _ _ Hs). cbn [fst].
  split.
  - intros e [= He]. apply head_filter_Some in He as [Hin Hm].
    split; [eapply nodesFrom_In; exact Hin | now apply exactMatch_agrees].
  - split.
    + intros [= Hn] r Hr Hag.
      destruct (nodesFrom_In_raw (length (heap w)) raw r Hr) as (e&He&Ht&Hv&Hp).
      pose proof (proj1 (head_filter_None _ _) Hn e He) as Hf.
      assert (exactMatch title vendor productType e = true); [|congruence].
      apply exactMatch_agrees. now rewrite Ht, Hv, Hp.
    + intros H. f_equal. apply head_filter_None. intros e He.
      destruct (exactMatch title vendor productType e) eqn:E; [|reflexivity].
      exfalso. apply exactMatch_agrees in E.
      apply nodesFrom_In in He as (r&Hr&_&Ht&Hv&Hp).
      apply (H r Hr). now rewrite <- Ht, <- Hv, <- Hp.
Qed.

(** Title and vendor agree, the product type does not: nothing is
    returned although the search answered an entry. *)
Lemma findProduct_exact_filter_witness :
  onSearch (Samples.catalog [Samples.redMug] (UpdateResolves []))
    (searchQueryOf "Red Mug") (requests emptyWorld)
  = SearchResolves [Samples.redMug]
  /\ fst (findProduct (Samples.catalog [Samples.redMug] (UpdateResolves []))
            "Red Mug" "Acme" "Cup" emptyWorld) = Normal None.
Proof.
  split; [reflexivity|].
  apply (proj2 (findProduct_exact_filter
                  (Samples.catalog [Samples.redMug] (UpdateResolves []))
                  "Red Mug" "Acme" "Cup" emptyWorld [Samples.redMug] eq_refl)).
  intros r [<-|[]] (_&_&H). vm_compute in H. discriminate.
Defined.

(** C5. When the search call is rejected with an error object, whatever
    its message and whether or not it carries GraphQL errors,
    [findProduct] completes normally with [null]: the row is not found
    and nothing is thrown to the caller. *)
Theorem findProduct_catches_errors svc title vendor productType w message graphqlErrors :
  onSearch svc (searchQueryOf title) (requests w)
  = SearchRejects (JsError message graphqlErrors) ->
  fst (findProduct svc title vendor productType w) = Normal None
  /\ forall e, fst (findProduct svc title vendor productType w) <> Throw e.
Proof.
  intros Hs. rewrite (findProduct_rejects _ _ _ _ _ _ Hs). cbn [fst].
  split; [reflexivity | discriminate].
Qed.

Lemma findProduct_catches_errors_witness :
  onSearch (Samples.failing (JsError "fetch failed" false))
    (searchQueryOf "Widget A") (requests emptyWorld)
  = SearchRejects (JsError "fetch failed" false)
  /\ fst (findProduct (Samples.failing (JsError "fetch failed" false))
            "Widget A" "Acme Co" "Gadgets" emptyWorld) = Normal None.
Proof.
  split; [reflexivity|].
  exact (proj1 (findProduct_catches_errors
                  (Samples.failing (JsError "fetch failed" false))
                  "Widget A" "Acme Co" "Gadgets" emptyWorld
                  "fetch failed" false eq_refl)).
Defined.

(** ** The tag updater *)

Lemma ensureTag_In ts : In TAG_NAME (ensureTag ts).
Proof.
  pose proof (ensureTag_includes ts) as H. unfold Array_includes in H.
  apply existsb_exists in H as (x&Hx&He). apply String.eqb_eq in He. now subst.
Qed.

Lemma updateProductTags_sent svc product ts w :
  currentTags w product = Some ts ->
  exists h,
    updateProductTags svc product w = afterUpdate svc product w h (ensureTag ts)
    /\ currentTags (mkWorld h (S (requests w))
                      (trace w ++ [EvUpdate (Product.id product) (ensureTag ts)])
                      ((console w ++ [LogUpdating (Product.id product)])
                         ++ updateLines (Product.title product)
                              (onUpdate svc (Product.id product) (ensureTag ts)
                                 (requests w)))
                      (files w)) product
       = match Product.tags product with
         | TagsArray _ => Some (ensureTag ts)
         | TagsOther => Some []
         end.
Proof.
  unfold currentTags. destruct (Product.tags product) as [l|] eqn:Ht; intros Hc.
  - exists (<[l := ensureTag ts]> (heap w)). split.
    + now apply updateProductTags_array.
    + cbn [heap]. apply list_lookup_insert_eq. eapply lookup_lt_Some; exact Hc.
  - injection Hc as <-. exists (heap w ++ [[TAG_NAME]]). split.
    + now apply updateProductTags_other.
    + reflexivity.
Qed.

(** C4. Take an entry whose current tag list is [ts].  The list sent to
    the service is [ts] itself when the marker tag is in it and [ts]
    with the tag appended once when it is not; a second call on the same
    entry sends the same list again and leaves the entry's list as the
    first call left it; and when the service accepts that update, both
    calls return [true]. *)
Theorem updateProductTags_idempotent svc product ts w :
  currentTags w product = Some ts ->
  let once := updateProductTags svc product w in
  let twice := updateProductTags svc product (snd once) in
  (Array_includes TAG_NAME ts = true -> ensureTag ts = ts)
  /\ (Array_includes TAG_NAME ts = false -> ensureTag ts = ts ++ [TAG_NAME])
  /\ trace (snd once) = trace w ++ [EvUpdate (Product.id product) (ensureTag ts)]
  /\ trace (snd twice)
     = trace (snd once) ++ [EvUpdate (Product.id product) (ensureTag ts)]
  /\ currentTags (snd twice) product = currentTags (snd once) product
  /\ (forall l, Product.tags product = TagsArray l ->
        heap (snd once) !! l = Some (ensureTag ts)
        /\ heap (snd twice) = heap (snd once))
  /\ ((forall n, onUpdate svc (Product.id product) (ensureTag ts) n = UpdateResolves []) ->
      fst once = Normal true /\ fst twice = Normal true).
Proof.
  intros Hc once twice.
  destruct (updateProductTags_sent svc product ts w Hc) as (h1&E1&C1).
  assert (Hc1 : currentTags (snd once) product
                = match Product.tags product with
                  | TagsArray _ => Some (ensureTag ts)
                  | TagsOther => Some []
                  end).
  { subst once. rewrite E1. exact C1. }
  assert (Hsame : forall ts1, currentTags (snd once) product = Some ts1 ->
                              ensureTag ts1 = ensureTag ts).
  { intros ts1 H1. rewrite Hc1 in H1. unfold currentTags in Hc.
    destruct (Product.tags product).
    - injection H1 as <-. apply ensureTag_idempotent.
    - injection H1 as <-. injection Hc as <-. reflexivity. }
  assert (Hc1' : exists ts1, currentTags (snd once) product = Some ts1).
  { rewrite Hc1. destruct (Product.tags product); eauto. }
  destruct Hc1' as (ts1&Hts1).
  destruct (updateProductTags_sent svc product ts1 (snd once) Hts1) as (h2&E2&C2).
  rewrite (Hsame _ Hts1) in E2, C2.
  assert (Et : twice = afterUpdate svc product (snd once) h2 (ensureTag ts))
    by exact E2.
  split; [unfold ensureTag; now intros -> |].
  split; [unfold ensureTag; now intros -> |].
  split; [subst once; rewrite E1; reflexivity|].
  split; [rewrite Et; reflexivity|].
  split.
  { rewrite Et. cbn [snd afterUpdate]. rewrite C2, Hc1.
    destruct (Product.tags product); reflexivity. }
  split.
  { intros l Hl. unfold currentTags in Hc, Hts1. rewrite Hl in Hc, Hts1.
    pose proof (updateProductTags_array svc product l ts w Hl Hc) as A1.
    fold once in A1.
    pose proof (updateProductTags_array svc product l ts1 (snd once) Hl Hts1) as A2.
    fold twice in A2. rewrite (Hsame ts1) in A2
      by (unfold currentTags; rewrite Hl; exact Hts1).
    split.
    - rewrite A1. cbn [snd afterUpdate heap].
      apply list_lookup_insert_eq. eapply lookup_lt_Some; exact Hc.
    - rewrite A2. cbn [snd afterUpdate heap].
      apply list_insert_id. rewrite A1. cbn [snd afterUpdate heap].
      apply list_lookup_insert_eq. eapply lookup_lt_Some; exact Hc. }
  intros Hok. split.
  - subst once. rewrite E1. cbn [fst afterUpdate]. now rewrite Hok.
  - rewrite Et. cbn [fst afterUpdate]. now rewrite Hok.
Qed.

(** The scenario of the specification: tags [sale], the service accepts. *)
Lemma updateProductTags_idempotent_witness :
  let svc := Samples.catalog [Samples.widgetA] (UpdateResolves []) in
  let product :=
    Product.mk "gid://shopify/Product/42" "Widget A" "Acme Co" "Gadgets" (TagsArray 0) in
  let w := mkWorld [["sale"]] 1 [] [] [] in
  currentTags w product = Some ["sale"]
  /\ heap (snd (updateProductTags svc product (snd (updateProductTags svc product w))))
     = [["sale"; TAG_NAME]]
  /\ fst (updateProductTags svc product w) = Normal true
  /\ fst (updateProductTags svc product (snd (updateProductTags svc product w)))
     = Normal true.
Proof.
  cbv zeta.
  pose proof (updateProductTags_idempotent
                (Samples.catalog [Samples.widgetA] (UpdateResolves []))
                (Product.mk "gid://shopify/Product/42" "Widget A" "Acme Co"
                   "Gadgets" (TagsArray 0))
                ["sale"] (mkWorld [["sale"]] 1 [] [] []) eq_refl) as H.
  cbv zeta in H. destruct H as (_&_&_&_&_&_&Hok).
  split; [reflexivity|]. split; [reflexivity|].
  apply Hok. intros n. reflexivity.
Defined.

(** C9. When the entry's [tags] is an array, the marker tag is pushed
    onto that very array before the request goes out: whatever the
    service answers -- acceptance, validation errors, a rejected call --
    the array the caller holds contains the tag after the call, no other
    array has changed, and the one request issued already carries the
    list with the tag. *)
Theorem updateProductTags_mutates_argument svc product l ts w :
  Product.tags product = TagsArray l ->
  heap w !! l = Some ts ->
  let after := snd (updateProductTags svc product w) in
  heap after !! l = Some (ensureTag ts)
  /\ In TAG_NAME (ensureTag ts)
  /\ (forall j, j <> l -> heap after !! j = heap w !! j)
  /\ trace after = trace w ++ [EvUpdate (Product.id product) (ensureTag ts)].
Proof.
  intros Ht Hl after. subst after.
  rewrite (updateProductTags_array svc product l ts w Ht Hl).
  cbn [snd afterUpdate heap trace].
  split; [apply list_lookup_insert_eq; eapply lookup_lt_Some; exact Hl|].
  split; [apply ensureTag_In|].
  split; [|reflexivity].
  intros j Hj. apply list_lookup_insert_ne. congruence.
Qed.

(** The update is refused with a validation error: the call returns
    [false] and the caller's array holds the tag all the same. *)
Lemma updateProductTags_mutates_argument_witness :
  let svc := Samples.catalog [Samples.widgetA] (UpdateResolves ["Tags is invalid"]) in
  let product :=
    Product.mk "gid://shopify/Product/42" "Widget A" "Acme Co" "Gadgets" (TagsArray 0) in
  let w := mkWorld [["sale"]] 1 [] [] [] in
  Product.tags product = TagsArray 0
  /\ heap w !! 0 = Some ["sale"]
  /\ fst (updateProductTags svc product w) = Normal false
  /\ heap (snd (updateProductTags svc product w)) !! 0 = Some ["sale"; TAG_NAME].
Proof.
  cbv zeta. split; [reflexivity|]. split; [reflexivity|]. split; [reflexivity|].
  exact (proj1 (updateProductTags_mutates_argument
                  (Samples.catalog [Samples.widgetA] (UpdateResolves ["Tags is invalid"]))
                  (Product.mk "gid://shopify/Product/42" "Widget A" "Acme Co"
                     "Gadgets" (TagsArray 0))
                  0 ["sale"] (mkWorld [["sale"]] 1 [] [] []) eq_refl eq_refl)).
Defined.

(** ** The reports *)

Lemma replaceFirst_gidPrefix rest :
  replaceFirst gidPrefix EmptyString (gidPrefix +:+ rest) = rest.
Proof. reflexivity. Qed.

Lemma generateReports_eq taggedProducts notFoundProducts w :
  exists lines,
    generateReports taggedProducts notFoundProducts w
    = (Normal tt,
       mkWorld (heap w) (requests w) (trace w) (console w ++ lines)
         (files w ++ reportsOf taggedProducts notFoundProducts))
    /\ Forall (fun l => match l with
                        | LogReportWritten _ | LogSummary _ _ => True
                        | _ => False
                        end) lines.
Proof.
  unfold generateReports, reportsOf, bind, writeFile, log, modify, ret.
  destruct taggedProducts as [|t ts], notFoundProducts as [|n ns];
    cbn [length Nat.ltb Nat.leb heap requests trace console files].
  - exists [LogSummary 0 0]. rewrite app_nil_r. split; [reflexivity|]. repeat constructor.
  - eexists [LogReportWritten false; LogSummary _ _]. split.
    + rewrite <- !app_assoc. reflexivity.
    + repeat constructor.
  - eexists [LogReportWritten true; LogSummary _ _]. split.
    + rewrite <- !app_assoc. reflexivity.
    + repeat constructor.
  - eexists [LogReportWritten true; LogReportWritten false; LogSummary _ _]. split.
    + rewrite <- !app_assoc. reflexivity.
    + repeat constructor.
Qed.

(** C7. [generateReports] writes the tagged report exactly when the
    tagged list is non-empty and the not-found report exactly when the
    not-found list is non-empty; no file it writes is without rows.  A
    row of the tagged report has the entry's title, product type and
    vendor, and when the entry's id is the prefix
    [gid://shopify/Product/] followed by [rest], its gid is [rest]; every
    row of the not-found report has the empty gid. *)
Theorem generateReports_files taggedProducts notFoundProducts w :
  exists written,
    files (snd (generateReports taggedProducts notFoundProducts w)) = files w ++ written
    /\ (forall rows, In (Report.mkFile Report.Tagged rows) written <->
                     taggedProducts <> [] /\ rows = successData taggedProducts)
    /\ (forall rows, In (Report.mkFile Report.NotFound rows) written <->
                     notFoundProducts <> [] /\ rows = notFoundData notFoundProducts)
    /\ Forall (fun f => Report.rows f <> []) written
    /\ Forall2 (fun product row =>
                  (forall rest, Product.id (shopify product) = gidPrefix +:+ rest ->
                                Report.gid row = rest)
                  /\ Report.title row = Product.title (shopify product)
                  /\ Report.productType row = Product.productType (shopify product)
                  /\ Report.vendor row = Product.vendor (shopify product))
         taggedProducts (successData taggedProducts)
    /\ Forall2 (fun product row =>
                  Report.gid row = EmptyString
                  /\ Report.title row = Row.title product
                  /\ Report.productType row = Row.productType product
                  /\ Report.vendor row = Row.vendor product)
         notFoundProducts (notFoundData notFoundProducts).
Proof.
  exists (reportsOf taggedProducts notFoundProducts).
  destruct (generateReports_eq taggedProducts notFoundProducts w) as (lines&E&_).
  rewrite E. cbn [snd files].
  split; [reflexivity|].
  split; [|split; [|split; [|split]]].
  - intros rows. unfold reportsOf.
    destruct taggedProducts as [|t ts], notFoundProducts as [|n ns]; simpl;
      split; try tauto; try (intros [? _]; congruence);
      try (intros [[= <-]|H]; [split; [discriminate|reflexivity]|]);
      try (intros [_ ->]; auto);
      try (destruct H as [H|[]]; discriminate);
      try (intros [H|[]]; discriminate); try tauto.
  - intros rows. unfold reportsOf.
    destruct taggedProducts as [|t ts], notFoundProducts as [|n ns]; simpl;
      split; try tauto; try (intros [? _]; congruence);
      try (intros [[= <-]|[]]; split; [discriminate|reflexivity]);
      try (intros [_ ->]; auto);
      try (intros [H|[]]; discriminate).
    intros [H|[[= <-]|[]]]; [discriminate|]. split; [discriminate|reflexivity].
  - unfold reportsOf.
    destruct taggedProducts as [|t ts], notFoundProducts as [|n ns]; simpl;
      repeat constructor; simpl; discriminate.
  - clear E. induction taggedProducts as [|t ts IH]; simpl; [constructor|].
    constructor; [|exact IH].
    simpl. split; [|auto]. intros rest ->. apply replaceFirst_gidPrefix.
  - clear E. induction notFoundProducts as [|n ns IH]; simpl; [constructor|].
    constructor; [|exact IH].
    simpl. auto.
Qed.

(** ** The driver *)

Lemma fates_app w lines :
  omap fateOf (console w ++ lines) = fates w ++ omap fateOf lines.
Proof. unfold fates. apply omap_app. Qed.

Lemma findProduct_frame svc title vendor productType w :
  exists c w',
    findProduct svc title vendor productType w = (c, w')
    /\ fates w' = fates w
    /\ trace w' = trace w ++ [EvSearch (searchQueryOf title)]
    /\ files w' = files w
    /\ (forall e, c = Throw e -> e = TypeError_nullish).
Proof.
  destruct (onSearch svc (searchQueryOf title) (requests w)) as [raw|e] eqn:Hs.
  - eexists _, _. split; [apply (findProduct_resolves _ _ _ _ _ _ Hs)|].
    cbv zeta. cbn [trace files]. unfold fates at 1. cbn [console].
    rewrite <- app_assoc, fates_app.
    split; [|split; [reflexivity|split; [reflexivity|discriminate]]].
    cbn [app omap]. unfold searchLine.
    destruct (nodesFrom (length (heap w)) raw) as [|e0 es]; cbn;
      [now rewrite app_nil_r|].
    destruct (if exactMatch title vendor productType e0
              then e0 :: List.filter (exactMatch title vendor productType) es
              else List.filter (exactMatch title vendor productType) es);
      cbn; now rewrite app_nil_r.
  - eexists _, _. split; [apply (findProduct_rejects _ _ _ _ _ _ Hs)|].
    cbn [trace files]. unfold fates at 1. cbn [console].
    rewrite <- app_assoc, fates_app. cbn. rewrite app_nil_r.
    split; [reflexivity|split; [reflexivity|split; [reflexivity|]]].
    destruct e; [discriminate|]. now intros e [= <-].
Qed.

Lemma updateProductTags_fate svc product w :
  exists c w' sent,
    updateProductTags svc product w = (c, w')
    /\ trace w' = trace w ++ [EvUpdate (Product.id product) sent]
    /\ files w' = files w
    /\ ((c = Normal true /\ fates w' = fates w)
        \/ (c = Normal false /\ fates w' = fates w ++ [FTagFailed])
        \/ (c = Throw TypeError_nullish /\ fates w' = fates w)).
Proof.
  destruct (updateProductTags_frame svc product w) as (h&sent&E).
  eexists _, _, sent. split; [exact E|]. unfold afterUpdate.
  cbn [trace files]. split; [reflexivity|]. split; [reflexivity|].
  unfold fates at 1 3 5. cbn [console]. rewrite <- app_assoc, fates_app.
  destruct (onUpdate svc (Product.id product) sent (requests w)) as [[|e es]|[m f|]];
    cbn; rewrite ?app_nil_r; auto.
Qed.

(** One turn of the loop: it completes normally, tells one fate on the
    console, issues its remote calls and then, unless the row errored,
    the pacing wait; the ledgers and the counters move as the fate
    says. *)
Lemma processProduct_step svc total product r :
  exists f calls entry r',
    processProduct svc total product r = (Normal tt, r')
    /\ fates (world r') = fates (world r) ++ [f]
    /\ Forall (fun e => isSleep e = false) calls
    /\ trace (world r')
       = trace (world r) ++ calls
           ++ (if paced f then [EvSleep RATE_LIMIT_DELAY] else [])
    /\ successfullyTagged r'
       = successfullyTagged r
           ++ (if inTagged f then [mkTagged entry product] else [])
    /\ notFound r' = notFound r ++ (if inNotFound f then [product] else [])
    /\ processed r' = S (processed r)
    /\ files (world r') = files (world r)
    /\ tagged r' = (if inTagged f then S (tagged r) else tagged r)
    /\ (inNotFound f = false -> matched r' = S (matched r))
    /\ (f = FNotFound -> matched r' = matched r).
Proof.
  run_driver.
  match goal with
  | |- context [findProduct svc ?t ?v ?p ?w] =>
      destruct (findProduct_frame svc t v p w) as (c&w1&E1&F1&T1&Fi1&Th1)
  end.
  rewrite E1. norm_world. rewrite omap_app in F1. cbn in F1. rewrite app_nil_r in F1.
  destruct c as [[found|]|err]; run_driver.
  - match goal with
    | |- context [updateProductTags svc found ?w] =>
        destruct (updateProductTags_fate svc found w) as (c2&w2&sent&E2&T2&Fi2&Hc)
    end.
    rewrite E2. norm_world. rewrite omap_app in Hc. cbn in Hc.
    rewrite app_nil_r, F1 in Hc. rewrite T1 in T2.
    destruct Hc as [[-> F2]|[[-> F2]|[-> F2]]]; run_driver.
    + exists FTagged, [EvSearch (searchQueryOf (Row.title product));
                       EvUpdate (Product.id found) sent], found.
      eexists. split; [reflexivity|]. norm_world.
      rewrite !omap_app, F2, T2, Fi2, Fi1. cbn. rewrite <- !app_assoc, ?app_nil_r.
      repeat split; try reflexivity; try discriminate. repeat constructor.
    + exists FTagFailed, [EvSearch (searchQueryOf (Row.title product));
                          EvUpdate (Product.id found) sent], found.
      eexists. split; [reflexivity|]. norm_world.
      rewrite !omap_app, F2, T2, Fi2, Fi1. cbn. rewrite <- !app_assoc, !app_nil_r.
      repeat split; try reflexivity; try discriminate. repeat constructor.
    + exists FErrored, [EvSearch (searchQueryOf (Row.title product));
                        EvUpdate (Product.id found) sent], found.
      eexists. split; [reflexivity|]. norm_world.
      rewrite !omap_app, F2, T2, Fi2, Fi1. cbn. rewrite <- !app_assoc, !app_nil_r.
      repeat split; try reflexivity; try discriminate. repeat constructor.
  - exists FNotFound, [EvSearch (searchQueryOf (Row.title product))],
      (Product.mk EmptyString EmptyString EmptyString EmptyString TagsOther).
    eexists. split; [reflexivity|]. norm_world.
    rewrite !omap_app, F1, T1, Fi1. cbn. rewrite <- !app_assoc, ?app_nil_r.
    repeat split; try reflexivity; try discriminate. repeat constructor.
  - rewrite (Th1 err eq_refl). run_driver.
    exists FErrored, [EvSearch (searchQueryOf (Row.title product))],
      (Product.mk EmptyString EmptyString EmptyString EmptyString TagsOther).
    eexists. split; [reflexivity|]. norm_world.
    rewrite !omap_app, F1, T1, Fi1. cbn. rewrite <- !app_assoc, ?app_nil_r.
    repeat split; try reflexivity; try discriminate. repeat constructor.
Qed.

Lemma filter_none {A} (f : A -> bool) l :
  Forall (fun x => f x = false) l -> List.filter f l = [].
Proof.
  induction 1 as [|x l Hx _ IH]; simpl; [reflexivity|]. now rewrite Hx.
Qed.

Lemma rowsWith_cons sel row rows f fs :
  rowsWith sel (row :: rows) (f :: fs)
  = (if sel f then [row] else []) ++ rowsWith sel rows fs.
Proof. unfold rowsWith. simpl. destruct (sel f); reflexivity. Qed.

Lemma rowsWith_In sel rows fs x : In x (rowsWith sel rows fs) -> In x rows.
Proof.
  unfold rowsWith. intros H. apply in_map_iff in H as ([x' f]&<-&H).
  apply List.filter_In in H as [H _]. eapply in_combine_l; exact H.
Qed.

Lemma rowsWith_count rows fs :
  length fs = length rows ->
  length (rowsWith inTagged rows fs) + length (rowsWith inNotFound rows fs)
    + length (List.filter tagFailed fs)
  = length rows.
Proof.
  revert fs. induction rows as [|row rows IH]; intros [|f fs] Hlen;
    try discriminate; [reflexivity|].
  injection Hlen as Hlen. specialize (IH fs Hlen).
  rewrite !rowsWith_cons. destruct f; simpl; rewrite ?length_app; simpl; lia.
Qed.

(** The whole loop, from any state. *)
Lemma forOf_steps svc total items :
  forall r,
  exists fs r',
    forOf items (processProduct svc total) r = (Normal tt, r')
    /\ length fs = length items
    /\ fates (world r') = fates (world r) ++ fs
    /\ map originalData (successfullyTagged r')
       = map originalData (successfullyTagged r) ++ rowsWith inTagged items fs
    /\ notFound r' = notFound r ++ rowsWith inNotFound items fs
    /\ pauses (world r')
       = pauses (world r)
           ++ map (fun _ => EvSleep RATE_LIMIT_DELAY) (List.filter paced fs)
    /\ (forall f, last fs = Some f -> paced f = true ->
          exists before, trace (world r') = before ++ [EvSleep RATE_LIMIT_DELAY])
    /\ processed r' = processed r + length items
    /\ files (world r') = files (world r).
Proof.
  induction items as [|product items IH]; intros r.
  - exists [], r. cbn. rewrite !app_nil_r, Nat.add_0_r.
    repeat split; try reflexivity. discriminate.
  - destruct (processProduct_step svc total product r)
      as (f&calls&entry&r1&E1&F1&Hcalls&T1&S1&N1&P1&Fi1&_).
    destruct (IH r1) as (fs&r2&E2&L2&F2&S2&N2&Pa2&La2&P2&Fi2).
    exists (f :: fs), r2.
    split; [cbn [forOf]; unfold bind; now rewrite E1|].
    split; [simpl; now rewrite L2|].
    split; [rewrite F2, F1, <- app_assoc; reflexivity|].
    split.
    { rewrite S2, S1, rowsWith_cons, map_app, <- app_assoc. f_equal. f_equal.
      destruct (inTagged f); reflexivity. }
    split; [rewrite N2, N1, rowsWith_cons, <- app_assoc; reflexivity|].
    split.
    { rewrite Pa2. unfold pauses at 1. rewrite T1, !List.filter_app.
      rewrite (filter_none _ _ Hcalls). fold (pauses (world r)).
      cbn [app List.filter]. rewrite <- app_assoc. f_equal.
      destruct f; reflexivity. }
    split.
    { intros f0 Hlast Hp. destruct fs as [|f1 fs'].
      - cbn in Hlast. injection Hlast as <-.
        destruct items; [|discriminate]. cbn in E2. injection E2 as <-.
        rewrite T1, Hp, app_assoc. eauto.
      - apply (La2 f0); [|exact Hp].
        rewrite <- Hlast. symmetry. apply last_cons_cons. }
    split; [rewrite P2, P1; simpl; lia|].
    now rewrite Fi2, Fi1.
Qed.

(** A run of the script: it completes, and its final state is the one
    the fates on the console describe. *)
Lemma runScript_fates svc records :
  exists r,
    runScript svc records = (Normal tt, r)
    /\ length (fates (world r)) = length (readRows records)
    /\ map originalData (successfullyTagged r)
       = rowsWith inTagged (readRows records) (fates (world r))
    /\ notFound r = rowsWith inNotFound (readRows records) (fates (world r))
    /\ pauses (world r)
       = map (fun _ => EvSleep RATE_LIMIT_DELAY)
           (List.filter paced (fates (world r)))
    /\ (forall f, last (fates (world r)) = Some f -> paced f = true ->
          exists before, trace (world r) = before ++ [EvSleep RATE_LIMIT_DELAY]).
Proof.
  unfold runScript, processTopProducts, reconcile.
  destruct (readRows records) as [|p ps] eqn:Hrows.
  - eexists. split; [reflexivity|]. cbn. repeat split; try reflexivity. discriminate.
  - cbn [length Nat.eqb].
    destruct (forOf_steps svc (length (p :: ps)) (p :: ps) (initialRun emptyWorld))
      as (fs&r1&E&L&F&S&N&Pa&La&_&_).
    destruct (generateReports_eq (successfullyTagged r1) (notFound r1) (world r1))
      as (lines&G&Hlines).
    cbn [length] in E. unfold bind at 1. rewrite E.
    cbv [bind gets id liftW]. rewrite G. eexists. split; [reflexivity|].
    assert (Hf : omap fateOf (console (world r1) ++ lines) = fs).
    { rewrite fates_app, F. cbn.
      assert (Hn : omap fateOf lines = []).
      { clear -Hlines. induction Hlines as [|l ls Hl _ IH]; [reflexivity|].
        cbn. destruct l; try contradiction; exact IH. }
      now rewrite Hn, app_nil_r. }
    unfold fates, pauses. cbn [world console trace successfullyTagged notFound].
    rewrite Hf. cbn in S, N, Pa. fold (pauses (world r1)). 
    repeat split; assumption.
Qed.

(** C1, as stated, fails: the entry is found, the update is refused
    with a validation error, and the row is in neither ledger -- one
    row was read, the two ledgers together hold none. *)
Lemma tag_failure_in_neither_ledger :
  let svc := Samples.catalog [Samples.widgetA] (UpdateResolves ["Tags is invalid"]) in
  let records := [Samples.sheetRow "Widget A" "Acme Co" "Gadgets"] in
  let r := snd (runScript svc records) in
  readRows records = [Row.mk "Widget A" "Acme Co" "Gadgets"]
  /\ matched r = 1
  /\ fates (world r) = [FTagFailed]
  /\ successfullyTagged r = []
  /\ notFound r = []
  /\ length (successfullyTagged r) + length (notFound r) <> length (readRows records).
Proof.
  cbv zeta. repeat split; try reflexivity. vm_compute. discriminate.
Qed.

(** The loop's [catch]: when the search call is rejected with
    [undefined], reading [error.response] in the handler of
    [findProduct] throws, the [catch] of the loop records the row as not
    found, and no pacing wait is issued for it. *)
Lemma pacing_skipped_when_row_throws :
  let records := [Samples.sheetRow "Widget A" "Acme Co" "Gadgets"] in
  let r := snd (runScript (Samples.failing JsNullish) records) in
  fates (world r) = [FErrored]
  /\ notFound r = [Row.mk "Widget A" "Acme Co" "Gadgets"]
  /\ trace (world r) = [EvSearch (searchQueryOf "Widget A")]
  /\ pauses (world r) = [].
Proof. cbv zeta. repeat split; reflexivity. Qed.

(** C6, amended.  A record gives a row exactly when the three located
    values are present and non-empty as read; the row holds them
    trimmed.  A record that gives no row leaves [products] as it was,
    so the rows read are the rows of the complete records, in order,
    and every row of either ledger comes from a complete record. *)
Theorem normalizeRow_complete_rows :
  (forall row r,
      normalizeRow row = Some r <->
      exists t v p,
        located "title" row = Some t /\ located "vendor" row = Some v
        /\ located "type" row = Some p
        /\ t <> EmptyString /\ v <> EmptyString /\ p <> EmptyString
        /\ r = Row.mk (trim t) (trim v) (trim p))
  /\ (forall row products, normalizeRow row = None -> onData row products = products)
  /\ (forall records, readRows records = omap normalizeRow records)
  /\ (forall svc records,
        Forall (fun p => exists row, In row records /\ normalizeRow row = Some p)
          (notFound (snd (runScript svc records)))
        /\ Forall (fun t => exists row,
                       In row records /\ normalizeRow row = Some (originalData t))
             (successfullyTagged (snd (runScript svc records)))).
Proof.
  split; [exact normalizeRow_some|].
  split; [intros row products H; unfold onData; now rewrite H|].
  split; [exact readRows_omap|].
  intros svc records.
  assert (Hfrom : forall p, In p (readRows records) ->
                    exists row, In row records /\ normalizeRow row = Some p).
  { intros p Hp. rewrite readRows_omap in Hp. apply list_elem_of_In in Hp.
    apply list_elem_of_omap in Hp as (row&Hrow&Hn).
    exists row. split; [now apply list_elem_of_In | exact Hn]. }
  destruct (runScript_fates svc records) as (r&E&_&S&N&_&_).
  rewrite E. cbn [snd]. split.
  - apply List.Forall_forall. intros p Hp. apply Hfrom.
    rewrite N in Hp. eapply rowsWith_In; exact Hp.
  - apply List.Forall_forall. intros t Ht. apply Hfrom.
    eapply rowsWith_In. rewrite <- S. now apply in_map.
Qed.

(** * Further properties *)

(** ** The matcher: the tie-break *)

Lemma head_filter_split {A} (f : A -> bool) l x :
  head (List.filter f l) = Some x ->
  exists pre post, l = pre ++ x :: post
                   /\ Forall (fun y => f y = false) pre /\ f x = true.
Proof.
  induction l as [|a l IH]; simpl; [discriminate|].
  destruct (f a) eqn:E; simpl.
  - intros [= <-]. exists [], l. repeat split; [constructor | exact E].
  - intros H. destruct (IH H) as (pre&post&->&Hpre&Hx).
    exists (a :: pre), post. repeat split; [constructor; assumption | exact Hx].
Qed.

Lemma nodesFrom_fields base raw :
  map entryFields (nodesFrom base raw) = map rawFields raw.
Proof.
  revert base. induction raw as [|r raw IH]; intros base; simpl; [reflexivity|].
  destruct (raw_tags r); simpl; now rewrite IH.
Qed.

(** X1. When several answered entries pass the three tests,
    [findProduct] returns the first of them in response order: every
    entry answered before the returned one fails a test. *)
Theorem findProduct_first_match svc title vendor productType w raw e :
  onSearch svc (searchQueryOf title) (requests w) = SearchResolves raw ->
  fst (findProduct svc title vendor productType w) = Normal (Some e) ->
  exists before r after,
    raw = before ++ r :: after
    /\ rawFields r = entryFields e
    /\ Forall (fun r' => ~ agrees title vendor productType
                           (raw_title r') (raw_vendor r') (raw_productType r'))
         before.
Proof.
  intros Hs. rewrite (findProduct_resolves _ _ _ _ _ _ Hs). cbn [fst].
  intros [= He]. apply head_filter_split in He as (pre&post&Hn&Hpre&_).
  pose proof (nodesFrom_fields (length (heap w)) raw) as Hf.
  rewrite Hn, map_app in Hf. cbn [map] in Hf. symmetry in Hf.
  apply map_eq_app in Hf as (before&rest&->&Hb&Hr).
  destruct rest as [|r after]; [discriminate|]. cbn [map] in Hr.
  assert (Hre : rawFields r = entryFields e) by congruence.
  exists before, r, after. split; [reflexivity|]. split; [exact Hre|].
  clear -Hb Hpre. revert pre Hb Hpre.
  induction before as [|b before IH]; intros pre Hb Hpre; [constructor|].
  destruct pre as [|p pre]; [discriminate|]. cbn [map] in Hb.
  assert (Hp : rawFields b = entryFields p) by congruence.
  assert (Hb' : map rawFields before = map entryFields pre) by congruence.
  inversion Hpre as [|? ? Hp0 Hpre0]; subst.
  constructor; [|eapply IH; eassumption].
  intros Hag. unfold rawFields, entryFields in Hp. injection Hp as _ Ht Hv Hy.
  assert (exactMatch title vendor productType p = true); [|congruence].
  apply exactMatch_agrees. now rewrite <- Ht, <- Hv, <- Hy.
Qed.

Lemma findProduct_first_match_witness :
  let twin := mkRaw "gid://shopify/Product/8" "Red Mug" "Acme" "Mug" (Some []) in
  let other := mkRaw "gid://shopify/Product/6" "Red Mug" "Other Co" "Mug" (Some []) in
  let svc := Samples.catalog [other; Samples.redMug; twin] (UpdateResolves []) in
  exists e,
    fst (findProduct svc "Red Mug" "Acme" "Mug" emptyWorld) = Normal (Some e)
    /\ Product.id e = "gid://shopify/Product/7"
    /\ exists before r after,
        [other; Samples.redMug; twin] = before ++ r :: after
        /\ rawFields r = entryFields e
        /\ Forall (fun r' => ~ agrees "Red Mug" "Acme" "Mug"
                               (raw_title r') (raw_vendor r') (raw_productType r'))
             before.
Proof.
  cbv zeta. eexists. split; [reflexivity|]. split; [reflexivity|].
  eapply (findProduct_first_match
            (Samples.catalog
               [mkRaw "gid://shopify/Product/6" "Red Mug" "Other Co" "Mug" (Some []);
                Samples.redMug;
                mkRaw "gid://shopify/Product/8" "Red Mug" "Acme" "Mug" (Some [])]
               (UpdateResolves []))
            "Red Mug" "Acme" "Mug" emptyWorld); reflexivity.
Defined.

(** ** The tag updater: its answer *)

(** X2. On an entry whose tag list is [ts], [updateProductTags] issues
    exactly one request, the update of the entry's id with [ts] and the
    marker tag ensured.  It returns [true] exactly when the service
    answers with no validation error; validation errors make it return
    [false] after printing their messages joined by [", "]; a call
    rejected with an error object makes it return [false] after
    printing that error's message. *)
Theorem updateProductTags_answer svc product ts w :
  currentTags w product = Some ts ->
  let reply := onUpdate svc (Product.id product) (ensureTag ts) (requests w) in
  let result := updateProductTags svc product w in
  trace (snd result) = trace w ++ [EvUpdate (Product.id product) (ensureTag ts)]
  /\ requests (snd result) = S (requests w)
  /\ (fst result = Normal true <-> reply = UpdateResolves [])
  /\ (forall e es, reply = UpdateResolves (e :: es) ->
        fst result = Normal false
        /\ console (snd result)
           = console w ++ [LogUpdating (Product.id product);
                           LogUpdateFailed (Product.title product)
                             (join ", " (e :: es))])
  /\ (forall message g, reply = UpdateRejects (JsError message g) ->
        fst result = Normal false
        /\ console (snd result)
           = console w ++ [LogUpdating (Product.id product);
                           LogUpdateFailed (Product.title product) message]).
Proof.
  intros Hc reply result.
  destruct (updateProductTags_sent svc product ts w Hc) as (h&E&_).
  subst result. rewrite E. unfold afterUpdate. fold reply.
  cbn [fst snd trace requests console].
  split; [reflexivity|]. split; [reflexivity|].
  split.
  { destruct reply as [[|e es]|[m g|]]; cbn; split; congruence. }
  split.
  - intros e es ->. cbn. rewrite <- app_assoc. split; reflexivity.
  - intros message g ->. cbn. rewrite <- app_assoc. split; reflexivity.
Qed.

Lemma updateProductTags_answer_witness :
  let svc := Samples.catalog [Samples.widgetA]
               (UpdateResolves ["Tags is invalid"; "Too many tags"]) in
  let product :=
    Product.mk "gid://shopify/Product/42" "Widget A" "Acme Co" "Gadgets" (TagsArray 0) in
  let w := mkWorld [["sale"]] 1 [] [] [] in
  currentTags w product = Some ["sale"]
  /\ fst (updateProductTags svc product w) = Normal false
  /\ console (snd (updateProductTags svc product w))
     = [LogUpdating "gid://shopify/Product/42";
        LogUpdateFailed "Widget A" "Tags is invalid, Too many tags"].
Proof.
  cbv zeta. split; [reflexivity|].
  pose proof (updateProductTags_answer
                (Samples.catalog [Samples.widgetA]
                   (UpdateResolves ["Tags is invalid"; "Too many tags"]))
                (Product.mk "gid://shopify/Product/42" "Widget A" "Acme Co"
                   "Gadgets" (TagsArray 0))
                ["sale"] (mkWorld [["sale"]] 1 [] [] []) eq_refl) as H.
  cbv zeta in H. destruct H as (_&_&_&Hv&_).
  exact (Hv "Tags is invalid" ["Too many tags"] eq_refl).
Defined.

(** X3. When the entry's [tags] is not an array, the tag list starts
    empty: the request replaces the entry's tags by the marker tag
    alone, the pushed array is a new one, and no array that existed
    before the call is changed. *)
Theorem updateProductTags_tags_not_array svc product w :
  Product.tags product = TagsOther ->
  trace (snd (updateProductTags svc product w))
  = trace w ++ [EvUpdate (Product.id product) [TAG_NAME]]
  /\ heap (snd (updateProductTags svc product w)) = heap w ++ [[TAG_NAME]]
  /\ forall l, l < length (heap w) ->
       heap (snd (updateProductTags svc product w)) !! l = heap w !! l.
Proof.
  intros Ht. rewrite (updateProductTags_other svc product w Ht).
  cbn [snd afterUpdate trace heap].
  split; [reflexivity|]. split; [reflexivity|].
  intros l Hl. now apply lookup_app_l.
Qed.

Lemma updateProductTags_tags_not_array_witness :
  let product :=
    Product.mk "gid://shopify/Product/42" "Widget A" "Acme Co" "Gadgets" TagsOther in
  let w := mkWorld [["sale"]] 1 [] [] [] in
  Product.tags product = TagsOther
  /\ trace (snd (updateProductTags (Samples.failing (JsError "offline" false)) product w))
     = [EvUpdate "gid://shopify/Product/42" [TAG_NAME]].
Proof.
  cbv zeta. split; [reflexivity|].
  exact (proj1 (updateProductTags_tags_not_array
                  (Samples.failing (JsError "offline" false))
                  (Product.mk "gid://shopify/Product/42" "Widget A" "Acme Co"
                     "Gadgets" TagsOther)
                  (mkWorld [["sale"]] 1 [] [] []) eq_refl)).
Defined.

(** ** The row normalizer: which column is read *)

Lemma find_filter_same {A} (p q : A -> bool) l :
  (forall x, p x = true -> q x = true) ->
  List.find p (List.filter q l) = List.find p l.
Proof.
  intros Hpq. induction l as [|a l IH]; simpl; [reflexivity|].
  destruct (q a) eqn:Hq; simpl.
  - now rewrite IH.
  - destruct (p a) eqn:Hp; [|exact IH]. apply Hpq in Hp. congruence.
Qed.

Lemma keys_filter (q : string -> bool) (row : RowObj) :
  Object_keys (List.filter (fun kv => q (fst kv)) row)
  = List.filter q (Object_keys row).
Proof.
  unfold Object_keys. induction row as [|[k v] row IH]; simpl; [reflexivity|].
  destruct (q k); simpl; now rewrite IH.
Qed.

Lemma findKey_matches word row k :
  findKey word row = Some k -> includes (toLowerCase k) word = true.
Proof. unfold findKey. intros H. now apply List.find_some in H as [_ H]. Qed.

Lemma located_filter word (row : RowObj) :
  (forall h, includes (toLowerCase h) word = true -> keywordHeader h = true) ->
  located word (List.filter (fun kv => keywordHeader (fst kv)) row) = located word row.
Proof.
  intros Hw. unfold located.
  assert (Hk : findKey word (List.filter (fun kv => keywordHeader (fst kv)) row)
               = findKey word row).
  { unfold findKey. rewrite keys_filter. now apply find_filter_same. }
  rewrite Hk. destruct (findKey word row) as [k|] eqn:E; [|reflexivity].
  cbn [valueAt]. destruct (truthy k); [|reflexivity].
  unfold getProp. rewrite find_filter_same; [reflexivity|].
  intros [k' v]. cbn [fst]. intros Heq. apply String.eqb_eq in Heq. subst k'.
  apply Hw. eapply findKey_matches; exact E.
Qed.

Lemma normalizeRow_located row :
  normalizeRow row
  = (if truthyValue (located "title" row) && truthyValue (located "vendor" row)
        && truthyValue (located "type" row)
     then match located "title" row, located "vendor" row, located "type" row with
          | Some t, Some v, Some p => Some (Row.mk (trim t) (trim v) (trim p))
          | _, _, _ => None
          end
     else None).
Proof. reflexivity. Qed.

(** X5. Columns whose header holds none of the words "title", "vendor"
    and "type" (in any case) are ignored: dropping them from a record
    does not change what the normalizer makes of it. *)
Theorem normalizeRow_ignores_other_columns (row : RowObj) :
  normalizeRow (List.filter (fun kv => keywordHeader (fst kv)) row)
  = normalizeRow row.
Proof.
  rewrite !normalizeRow_located.
  rewrite !located_filter; [reflexivity| | |];
    intros h Hh; unfold keywordHeader; rewrite Hh;
    rewrite ?orb_true_r; reflexivity.
Qed.

(** X6. Of several headers that hold the word looked for, the first in
    key order is the one read: when no header before [h] holds [word]
    and [h] does, the value located for [word] is the cell under [h],
    whatever columns follow. *)
Theorem located_first_header word (before after : RowObj) h cell :
  word <> EmptyString ->
  Forall (fun kv => includes (toLowerCase (fst kv)) word = false) before ->
  includes (toLowerCase h) word = true ->
  located word (before ++ (h, cell) :: after) = Some cell.
Proof.
  intros Hw Hb Hh. unfold located.
  assert (Hk : findKey word (before ++ (h, cell) :: after) = Some h).
  { unfold findKey, Object_keys. induction Hb as [|[k v] before Hkv _ IH]; simpl.
    - now rewrite Hh.
    - cbn [fst] in Hkv. now rewrite Hkv. }
  rewrite Hk. cbn [valueAt].
  assert (Ht : truthy h = true).
  { apply truthy_true_iff. intros ->. cbn in Hh.
    destruct word; [congruence | discriminate]. }
  rewrite Ht. unfold getProp.
  assert (Hf : List.find (fun kv : string * string => String.eqb (fst kv) h)
                 (before ++ (h, cell) :: after) = Some (h, cell)).
  { clear Hk. induction Hb as [|[k v] before Hkv _ IH]; simpl.
    - now rewrite String.eqb_refl.
    - cbn [fst] in Hkv. destruct (String.eqb_spec k h) as [->|_]; [congruence|].
      exact IH. }
  now rewrite Hf.
Qed.

Lemma located_first_header_witness :
  located "title" [("SKU", "A-1"); ("Product Title", "Red Mug");
                   ("Subtitle", "Large"); ("Vendor", "Acme")]
  = Some "Red Mug".
Proof.
  apply (located_first_header "title" [("SKU", "A-1")] [("Subtitle", "Large"); ("Vendor", "Acme")]
           "Product Title" "Red Mug").
  - discriminate.
  - repeat constructor.
  - reflexivity.
Defined.

(** ** Trimming *)

Lemma trimStart_head s :
  match trimStart s with
  | EmptyString => True
  | String c _ => isWhiteSpace c = false
  end.
Proof.
  induction s as [|c s IH]; simpl; [exact I|].
  destruct (isWhiteSpace c) eqn:E; [exact IH | exact E].
Qed.

Lemma trimEnd_idempotent s : trimEnd (trimEnd s) = trimEnd s.
Proof.
  induction s as [|c s IH]; simpl; [reflexivity|].
  destruct (trimEnd s) as [|c' r] eqn:E.
  - destruct (isWhiteSpace c) eqn:W; simpl; [reflexivity | now rewrite W].
  - cbn [trimEnd]. cbn [trimEnd] in IH. now rewrite IH.
Qed.

Lemma trimStart_trimEnd s :
  match s with
  | EmptyString => True
  | String c _ => isWhiteSpace c = false
  end ->
  trimStart (trimEnd s) = trimEnd s.
Proof.
  destruct s as [|c s]; [reflexivity|]. intros W. simpl.
  destruct (trimEnd s); [rewrite W; simpl; now rewrite W|].
  simpl. now rewrite W.
Qed.

Lemma trim_idempotent s : trim (trim s) = trim s.
Proof.
  unfold trim. rewrite trimStart_trimEnd by apply trimStart_head.
  apply trimEnd_idempotent.
Qed.

(** X7. The fields of a row that the normalizer gives are already
    trimmed, so the [vendor.trim()] and [productType.trim()] of the
    matcher leave them as they are: an entry matches such a row exactly
    when its title is the row's title and its trimmed vendor and product
    type are the row's vendor and product type. *)
Theorem normalizeRow_fields_trimmed row r e :
  normalizeRow row = Some r ->
  trim (Row.title r) = Row.title r
  /\ trim (Row.vendor r) = Row.vendor r
  /\ trim (Row.productType r) = Row.productType r
  /\ (exactMatch (Row.title r) (Row.vendor r) (Row.productType r) e = true <->
      Product.title e = Row.title r
      /\ trim (Product.vendor e) = Row.vendor r
      /\ trim (Product.productType e) = Row.productType r).
Proof.
  intros H. apply normalizeRow_some in H as (t&v&p&_&_&_&_&_&_&->).
  cbn [Row.title Row.vendor Row.productType].
  rewrite exactMatch_agrees. unfold agrees. rewrite !trim_idempotent. tauto.
Qed.

Lemma normalizeRow_fields_trimmed_witness :
  normalizeRow (Samples.sheetRow " Red Mug " "Acme  " "Mug")
  = Some (Row.mk "Red Mug" "Acme" "Mug")
  /\ trim "Acme" = "Acme".
Proof.
  split; [reflexivity|].
  exact (proj1 (proj2 (normalizeRow_fields_trimmed
                         (Samples.sheetRow " Red Mug " "Acme  " "Mug")
                         (Row.mk "Red Mug" "Acme" "Mug")
                         (Product.mk EmptyString EmptyString EmptyString
                            EmptyString TagsOther)
                         eq_refl))).
Defined.

(** ** Escaping: titles without quotes or backslashes *)

Lemma replaceAllChar_absent c b s :
  (fix absent (s : string) : bool :=
     match s with
     | EmptyString => true
     | String a s' => negb (Ascii.eqb a c) && absent s'
     end) s = true ->
  replaceAllChar c b s = s.
Proof.
  induction s as [|a s IH]; simpl; [reflexivity|].
  intros H. apply andb_true_iff in H as [Ha Hs].
  apply negb_true_iff in Ha. rewrite Ha, (IH Hs). reflexivity.
Qed.

Lemma plainText_escape s :
  plainText s = true ->
  replaceAllChar backslash (str backslash +:+ str backslash)
    (replaceAllChar dquote (str backslash +:+ str dquote)
       (replaceAllChar squote (str backslash +:+ str squote) s)) = s.
Proof.
  intros H.
  assert (Hq : forall c, (c = squote \/ c = dquote \/ c = backslash) ->
             replaceAllChar c (str backslash +:+ str c) s = s).
  { intros c Hc. apply replaceAllChar_absent.
    induction s as [|a s IH]; [reflexivity|]. cbn [plainText] in H.
    rewrite !andb_true_iff in H. destruct H as [[[H1 H2] H3] H4].
    rewrite (IH H4), andb_true_r.
    destruct Hc as [-> | [-> | ->]]; assumption. }
  rewrite (Hq squote), (Hq dquote), (Hq backslash); auto.
Qed.

Lemma plainText_trimStart s : plainText s = true -> plainText (trimStart s) = true.
Proof.
  induction s as [|a s IH]; simpl; [reflexivity|]. intros H.
  destruct (isWhiteSpace a); [|exact H].
  apply IH. rewrite !andb_true_iff in H. tauto.
Qed.

Lemma plainText_trimEnd s : plainText s = true -> plainText (trimEnd s) = true.
Proof.
  induction s as [|a s IH]; simpl; [reflexivity|]. intros H.
  rewrite !andb_true_iff in H. destruct H as [[[H1 H2] H3] H4].
  specialize (IH H4). destruct (trimEnd s) as [|c r].
  - destruct (isWhiteSpace a); [reflexivity|]. simpl. now rewrite H1, H2, H3.
  - cbn [plainText]. cbn [plainText] in IH. now rewrite H1, H2, H3, IH.
Qed.

Lemma readQuoted_plainText s rest :
  plainText s = true ->
  readQuotedFrom false (s +:+ String dquote rest) = Some (s, rest).
Proof.
  induction s as [|a s IH]; [reflexivity|]. intros H. cbn [plainText] in H.
  rewrite !andb_true_iff in H. destruct H as [[[H1 H2] H3] H4].
  apply negb_true_iff in H2, H3.
  change (String a s +:+ String dquote rest) with (String a (s +:+ String dquote rest)).
  cbn [readQuotedFrom]. rewrite H3, H2, (IH H4). reflexivity.
Qed.

(** X8. On a title without single quote, double quote or backslash the
    sanitizer only trims, and the literal read back from the search
    query is the trimmed title: the query asks for exactly that title. *)
Theorem cleanAndEscape_plain_title title :
  plainText title = true ->
  cleanAndEscape title = trim title
  /\ queryLiteral (searchQueryOf title) = Some (trim title, EmptyString).
Proof.
  intros H.
  assert (Hc : cleanAndEscape title = trim title).
  { unfold cleanAndEscape. now rewrite plainText_escape. }
  split; [exact Hc|].
  unfold queryLiteral, searchQueryOf. rewrite Hc.
  change ("title:" +:+ str dquote +:+ trim title +:+ str dquote)
    with (String "t" (String "i" (String "t" (String "l" (String "e" (String ":"
            (String dquote (trim title +:+ str dquote)))))))).
  cbn [dropChars].
  match goal with
  | |- context [startsWith ?a ?b] =>
      replace (startsWith a b) with true by reflexivity
  end.
  apply readQuoted_plainText.
  apply plainText_trimEnd, plainText_trimStart, H.
Qed.

Lemma cleanAndEscape_plain_title_witness :
  plainText "Red Mug - 12 oz. (Blue & White)" = true
  /\ queryLiteral (searchQueryOf "Red Mug - 12 oz. (Blue & White)")
     = Some ("Red Mug - 12 oz. (Blue & White)", EmptyString).
Proof.
  split; [reflexivity|].
  exact (proj2 (cleanAndEscape_plain_title "Red Mug - 12 oz. (Blue & White)" eq_refl)).
Defined.

(** ** One turn of the loop, in full *)

Lemma nodesFrom_tags base raw p l :
  In p (nodesFrom base raw) ->
  Product.tags p = TagsArray l ->
  base <= l < base + length (arraysOf raw).
Proof.
  revert base. induction raw as [|r raw IH]; intros base; simpl; [tauto|].
  destruct (raw_tags r); simpl.
  - intros [<-|Hin] Ht.
    + cbn in Ht. injection Ht as <-. lia.
    + specialize (IH (S base) Hin Ht). lia.
  - intros [<-|Hin] Ht; [discriminate|]. exact (IH base Hin Ht).
Qed.

Lemma findProduct_effects svc title vendor productType w :
  exists c w' new,
    findProduct svc title vendor productType w = (c, w')
    /\ fates w' = fates w
    /\ trace w' = trace w ++ [EvSearch (searchQueryOf title)]
    /\ requests w' = S (requests w)
    /\ files w' = files w
    /\ heap w' = heap w ++ new
    /\ match c with
       | Normal (Some p) =>
           forall l, Product.tags p = TagsArray l ->
                     length (heap w) <= l < length (heap w')
       | Normal None => True
       | Throw e =>
           e = TypeError_nullish
           /\ onSearch svc (searchQueryOf title) (requests w) = SearchRejects JsNullish
       end
    /\ ((exists m g,
           onSearch svc (searchQueryOf title) (requests w) = SearchRejects (JsError m g))
        \/ onSearch svc (searchQueryOf title) (requests w) = SearchResolves [] ->
        c = Normal None /\ new = []).
Proof.
  destruct (findProduct_frame svc title vendor productType w)
    as (c&w'&E&F&T&Fi&_).
  destruct (onSearch svc (searchQueryOf title) (requests w)) as [raw|e] eqn:Hs.
  - pose proof (findProduct_resolves _ _ vendor productType _ _ Hs) as E'.
    cbv zeta in E'. rewrite E in E'. injection E' as -> ->.
    eexists _, _, (arraysOf raw). split; [exact E|].
    cbn [requests heap files].
    split; [exact F|]. split; [exact T|]. split; [reflexivity|].
    split; [exact Fi|]. split; [reflexivity|].
    split.
    2:{ intros [(m&g&Hm)|Hm]; [discriminate|]. injection Hm as ->. split; reflexivity. }
    destruct (head _) as [p|] eqn:Hh; [|exact I].
    intros l Hl. apply head_filter_Some in Hh as [Hin _].
    pose proof (nodesFrom_tags _ _ _ _ Hin Hl). rewrite length_app. lia.
  - pose proof (findProduct_rejects _ _ vendor productType _ _ Hs) as E'.
    rewrite E in E'. injection E' as -> ->.
    eexists _, _, []. split; [exact E|].
    cbn [requests heap files]. rewrite app_nil_r.
    split; [exact F|]. split; [exact T|]. split; [reflexivity|].
    split; [exact Fi|]. split; [reflexivity|].
    split.
    + destruct e; [exact I | split; reflexivity].
    + intros [(m&g&[= ->])|Hm]; [split; reflexivity | discriminate].
Qed.

Lemma updateProductTags_effects svc product w :
  (forall l, Product.tags product = TagsArray l -> l < length (heap w)) ->
  exists c w' sent,
    updateProductTags svc product w = (c, w')
    /\ trace w' = trace w ++ [EvUpdate (Product.id product) sent]
    /\ requests w' = S (requests w)
    /\ files w' = files w
    /\ length (heap w) <= length (heap w')
    /\ (forall j, j < length (heap w) -> Product.tags product <> TagsArray j ->
                  heap w' !! j = heap w !! j)
    /\ (forall l, Product.tags product = TagsArray l ->
                  exists ts, heap w' !! l = Some ts /\ In TAG_NAME ts)
    /\ In TAG_NAME sent
    /\ ((c = Normal true /\ fates w' = fates w)
        \/ (c = Normal false /\ fates w' = fates w ++ [FTagFailed])
        \/ (c = Throw TypeError_nullish /\ fates w' = fates w
            /\ onUpdate svc (Product.id product) sent (requests w)
               = UpdateRejects JsNullish)).
Proof.
  intros Hv.
  assert (Hfate : forall h sent,
            let r := afterUpdate svc product w h sent in
            (fst r = Normal true /\ fates (snd r) = fates w)
            \/ (fst r = Normal false /\ fates (snd r) = fates w ++ [FTagFailed])
            \/ (fst r = Throw TypeError_nullish /\ fates (snd r) = fates w
                /\ onUpdate svc (Product.id product) sent (requests w)
                   = UpdateRejects JsNullish)).
  { intros h sent. cbv zeta. unfold afterUpdate. cbn [fst snd].
    unfold fates at 1 3 5. cbn [console]. rewrite <- app_assoc, fates_app.
    destruct (onUpdate svc (Product.id product) sent (requests w))
      as [[|e es]|[m f|]]; cbn; rewrite ?app_nil_r; auto. }
  destruct (Product.tags product) as [l|] eqn:Ht.
  - specialize (Hv l eq_refl). destruct (lookup_lt_is_Some_2 _ _ Hv) as (ts&Hl).
    pose proof (updateProductTags_array svc product l ts w Ht Hl) as E.
    specialize (Hfate (<[l := ensureTag ts]> (heap w)) (ensureTag ts)).
    cbv zeta in Hfate.
    destruct (afterUpdate svc product w (<[l:=ensureTag ts]> (heap w)) (ensureTag ts))
      as (c&w') eqn:Ea.
    exists c, w', (ensureTag ts). split; [exact E|].
    unfold afterUpdate in Ea. injection Ea as Ec Ew. subst w'.
    cbn [trace requests files heap fst snd] in *.
    rewrite length_insert.
    split; [reflexivity|]. split; [reflexivity|]. split; [reflexivity|].
    split; [lia|].
    split; [intros j _ Hj; apply list_lookup_insert_ne; congruence|].
    split.
    { intros l' [= <-]. exists (ensureTag ts).
      split; [now apply list_lookup_insert_eq | apply ensureTag_In]. }
    split; [apply ensureTag_In | exact Hfate].
  - pose proof (updateProductTags_other svc product w Ht) as E.
    specialize (Hfate (heap w ++ [[TAG_NAME]]) [TAG_NAME]). cbv zeta in Hfate.
    destruct (afterUpdate svc product w (heap w ++ [[TAG_NAME]]) [TAG_NAME])
      as (c&w') eqn:Ea.
    exists c, w', [TAG_NAME]. split; [exact E|].
    unfold afterUpdate in Ea. injection Ea as Ec Ew. subst w'.
    cbn [trace requests files heap fst snd] in *.
    rewrite length_app.
    split; [reflexivity|]. split; [reflexivity|]. split; [reflexivity|].
    split; [lia|].
    split; [intros j Hj _; now apply lookup_app_l|].
    split; [intros l' [=]|].
    split; [left; reflexivity | exact Hfate].
Qed.

(** One turn of the loop with everything it does: the fate it tells,
    the calls it issues, what becomes of the arrays, the ledgers and
    the counters, and where an error can come from. *)
Lemma processProduct_effects svc total product r :
  exists f calls entry r',
    processProduct svc total product r = (Normal tt, r')
    /\ fates (world r') = fates (world r) ++ [f]
    /\ trace (world r')
       = trace (world r) ++ calls
           ++ (if paced f then [EvSleep RATE_LIMIT_DELAY] else [])
    /\ ((calls = [EvSearch (searchQueryOf (Row.title product))]
         /\ matched r' = matched r /\ inTagged f = false /\ tagFailed f = false)
        \/ (exists sent,
              calls = [EvSearch (searchQueryOf (Row.title product));
                       EvUpdate (Product.id entry) sent]
              /\ In TAG_NAME sent /\ matched r' = S (matched r)))
    /\ requests (world r') = requests (world r) + length calls
    /\ length (heap (world r)) <= length (heap (world r'))
    /\ (forall j, j < length (heap (world r)) ->
                  heap (world r') !! j = heap (world r) !! j)
    /\ successfullyTagged r'
       = successfullyTagged r
           ++ (if inTagged f then [mkTagged entry product] else [])
    /\ notFound r' = notFound r ++ (if inNotFound f then [product] else [])
    /\ tagged r' = (if inTagged f then S (tagged r) else tagged r)
    /\ processed r' = S (processed r)
    /\ files (world r') = files (world r)
    /\ (f = FTagged ->
        forall l, Product.tags entry = TagsArray l ->
                  exists ts, heap (world r') !! l = Some ts /\ In TAG_NAME ts)
    /\ (f = FErrored ->
        onSearch svc (searchQueryOf (Row.title product)) (requests (world r))
        = SearchRejects JsNullish
        \/ exists id sent,
            onUpdate svc id sent (S (requests (world r))) = UpdateRejects JsNullish)
    /\ ((exists m g,
           onSearch svc (searchQueryOf (Row.title product)) (requests (world r))
           = SearchRejects (JsError m g))
        \/ onSearch svc (searchQueryOf (Row.title product)) (requests (world r))
           = SearchResolves [] ->
        f = FNotFound
        /\ calls = [EvSearch (searchQueryOf (Row.title product))]
        /\ heap (world r') = heap (world r)).
Proof.
  run_driver.
  match goal with
  | |- context [findProduct svc ?t ?v ?p ?w] =>
      destruct (findProduct_effects svc t v p w)
        as (c&w1&new&E1&F1&T1&R1&Fi1&H1&Hc1&He1)
  end.
  rewrite E1. norm_world. rewrite omap_app in F1. cbn in F1. rewrite app_nil_r in F1.
  destruct c as [[found|]|err]; run_driver.
  - match goal with
    | |- context [updateProductTags svc found ?w] =>
        destruct (updateProductTags_effects svc found w)
          as (c2&w2&sent&E2&T2&R2&Fi2&L2&K2&G2&S2&Hc)
    end.
    { cbn [heap]. intros l Hl. apply (Hc1 l Hl). }
    rewrite E2. norm_world. rewrite omap_app in Hc. cbn in Hc.
    rewrite app_nil_r, F1 in Hc. rewrite T1 in T2. rewrite R1 in R2, Hc.
    assert (Hlen : length (heap (world r)) <= length (heap w2))
      by (rewrite H1, length_app in L2; lia).
    assert (Hold : forall j, j < length (heap (world r)) ->
                             heap w2 !! j = heap (world r) !! j).
    { intros j Hj. rewrite K2.
      - rewrite H1. now apply lookup_app_l.
      - rewrite H1, length_app. lia.
      - intros Hl. specialize (Hc1 j Hl). lia. }
    destruct Hc as [[-> F2]|[[-> F2]|[-> [F2 Hn]]]]; run_driver.
    + exists FTagged, [EvSearch (searchQueryOf (Row.title product));
                       EvUpdate (Product.id found) sent], found.
      eexists. split; [reflexivity|]. norm_world.
      rewrite !omap_app, F2, T2, R2, Fi2, Fi1. cbn. rewrite <- !app_assoc, ?app_nil_r.
      split; [reflexivity|]. split; [reflexivity|].
      split; [right; exists sent; auto|].
      split; [lia|]. split; [exact Hlen|]. split; [exact Hold|].
      split; [reflexivity|]. split; [reflexivity|]. split; [reflexivity|].
      split; [reflexivity|]. split; [reflexivity|].
      split; [intros _; exact G2|].
      split; [discriminate|]. intros Hm. destruct (He1 Hm); discriminate.
    + exists FTagFailed, [EvSearch (searchQueryOf (Row.title product));
                          EvUpdate (Product.id found) sent], found.
      eexists. split; [reflexivity|]. norm_world.
      rewrite !omap_app, F2, T2, R2, Fi2, Fi1. cbn. rewrite <- !app_assoc, ?app_nil_r.
      split; [reflexivity|]. split; [reflexivity|].
      split; [right; exists sent; auto|].
      split; [lia|]. split; [exact Hlen|]. split; [exact Hold|].
      split; [reflexivity|]. split; [reflexivity|]. split; [reflexivity|].
      split; [reflexivity|]. split; [reflexivity|].
      split; [discriminate|].
      split; [discriminate|]. intros Hm. destruct (He1 Hm); discriminate.
    + exists FErrored, [EvSearch (searchQueryOf (Row.title product));
                        EvUpdate (Product.id found) sent], found.
      eexists. split; [reflexivity|]. norm_world.
      rewrite !omap_app, F2, T2, R2, Fi2, Fi1. cbn. rewrite <- !app_assoc, ?app_nil_r.
      split; [reflexivity|]. split; [reflexivity|].
      split; [right; exists sent; auto|].
      split; [lia|]. split; [exact Hlen|]. split; [exact Hold|].
      split; [reflexivity|]. split; [reflexivity|]. split; [reflexivity|].
      split; [reflexivity|]. split; [reflexivity|].
      split; [discriminate|].
      split; [intros _; right; exists (Product.id found), sent; exact Hn|].
      intros Hm. destruct (He1 Hm); discriminate.
  - exists FNotFound, [EvSearch (searchQueryOf (Row.title product))],
      (Product.mk EmptyString EmptyString EmptyString EmptyString TagsOther).
    eexists. split; [reflexivity|]. norm_world.
    rewrite !omap_app, F1, T1, R1, Fi1. cbn. rewrite <- !app_assoc, ?app_nil_r.
    split; [reflexivity|]. split; [reflexivity|].
    split; [left; auto|].
    split; [lia|].
    split; [rewrite H1, length_app; lia|].
    split; [intros j Hj; rewrite H1; now apply lookup_app_l|].
    split; [reflexivity|]. split; [reflexivity|]. split; [reflexivity|].
    split; [reflexivity|]. split; [reflexivity|].
    split; [discriminate|]. split; [discriminate|].
    intros Hm. destruct (He1 Hm) as [_ ->]. rewrite app_nil_r in H1.
    split; [reflexivity|]. split; [reflexivity | exact H1].
  - destruct Hc1 as [-> Hn]. run_driver.
    exists FErrored, [EvSearch (searchQueryOf (Row.title product))],
      (Product.mk EmptyString EmptyString EmptyString EmptyString TagsOther).
    eexists. split; [reflexivity|]. norm_world.
    rewrite !omap_app, F1, T1, R1, Fi1. cbn. rewrite <- !app_assoc, ?app_nil_r.
    split; [reflexivity|]. split; [reflexivity|].
    split; [left; auto|].
    split; [lia|].
    split; [rewrite H1, length_app; lia|].
    split; [intros j Hj; rewrite H1; now apply lookup_app_l|].
    split; [reflexivity|]. split; [reflexivity|]. split; [reflexivity|].
    split; [reflexivity|]. split; [reflexivity|].
    split; [discriminate|]. split; [intros _; left; exact Hn|].
    intros Hm. destruct (He1 Hm); discriminate.
Qed.

(** ** The whole loop *)

Lemma forOf_cons {S A} (x : A) rest (body : A -> M S unit) s s1 :
  body x s = (Normal tt, s1) ->
  forOf (x :: rest) body s = forOf rest body s1.
Proof. intros H. cbn [forOf]. unfold bind. now rewrite H. Qed.

Lemma forOf_calls svc total items :
  forall r,
    let r' := snd (forOf items (processProduct svc total) r) in
    List.filter isSearch (trace (world r'))
    = List.filter isSearch (trace (world r)) ++ map searchFor items
    /\ length (List.filter isUpdate (trace (world r'))) + matched r
       = length (List.filter isUpdate (trace (world r))) + matched r'
    /\ matched r <= matched r' <= matched r + length items
    /\ requests (world r') + matched r
       = requests (world r) + length items + matched r'
    /\ tagged r <= tagged r'
    /\ tagged r' + matched r <= tagged r + matched r'
    /\ length (successfullyTagged r') + tagged r
       = length (successfullyTagged r) + tagged r'
    /\ processed r' = processed r + length items
    /\ (Forall updateCarriesTag (trace (world r)) ->
        Forall updateCarriesTag (trace (world r'))).
Proof.
  induction items as [|product items IH]; intros r; cbv zeta.
  - cbn. rewrite app_nil_r. repeat split; try lia; auto.
  - destruct (processProduct_effects svc total product r)
      as (f&calls&entry&r1&E&_&T&Hcalls&R&_&_&St&_&Tg&P&_).
    rewrite (forOf_cons _ _ _ _ _ E).
    specialize (IH r1). cbv zeta in IH.
    destruct IH as (I1&I2&I3&I4&I5&I6&I7&I8&I9).
    set (r' := snd (forOf items (processProduct svc total) r1)) in *.
    assert (Hs : List.filter isSleep
                   (if paced f then [EvSleep RATE_LIMIT_DELAY] else []) = 
                 (if paced f then [EvSleep RATE_LIMIT_DELAY] else []))
      by (destruct (paced f); reflexivity).
    assert (Hlen : length (successfullyTagged r1)
                   = length (successfullyTagged r) + (if inTagged f then 1 else 0)).
    { rewrite St, length_app. destruct (inTagged f); reflexivity. }
    cbn [length].
    destruct Hcalls as [(->&Hm&Hnt&_)|(sent&->&Hin&Hm)].
    + rewrite Hnt in Tg, Hlen. cbn [length] in R.
      split.
      { rewrite I1, T, !List.filter_app. cbn [List.filter isSearch app].
        destruct (paced f); cbn; rewrite <- !app_assoc; reflexivity. }
      assert (Hu : length (List.filter isUpdate (trace (world r1)))
                   = length (List.filter isUpdate (trace (world r)))).
      { rewrite T, !List.filter_app, !length_app. cbn [List.filter isUpdate].
        destruct (paced f); cbn; lia. }
      split; [lia|].
      split; [lia|]. split; [lia|]. split; [lia|]. split; [lia|].
      split; [lia|]. split; [lia|].
      intros Hall. apply I9. rewrite T. apply Forall_app. split; [exact Hall|].
      destruct (paced f); repeat constructor.
    + cbn [length] in R.
      assert (Htg : tagged r1 <= S (tagged r) /\ tagged r <= tagged r1
                    /\ length (successfullyTagged r1) + tagged r
                       = length (successfullyTagged r) + tagged r1).
      { rewrite Tg, Hlen. destruct (inTagged f); lia. }
      split.
      { rewrite I1, T, !List.filter_app. cbn [List.filter isSearch app].
        destruct (paced f); cbn; rewrite <- !app_assoc; reflexivity. }
      assert (Hu : length (List.filter isUpdate (trace (world r1)))
                   = S (length (List.filter isUpdate (trace (world r))))).
      { rewrite T, !List.filter_app, !length_app. cbn [List.filter isUpdate].
        destruct (paced f); cbn; lia. }
      split; [lia|].
      split; [lia|]. split; [lia|]. split; [lia|]. split; [lia|].
      split; [lia|]. split; [lia|].
      intros Hall. apply I9. rewrite T. apply Forall_app. split; [exact Hall|].
      destruct (paced f); repeat constructor; exact Hin.
Qed.

(** A run with rows: the loop from the initial state, then the reports
    from the ledgers the loop left. *)
Lemma runScript_loop svc records :
  exists lines,
    omap fateOf lines = [] /\
    let products := readRows records in
    let r1 := snd (forOf products (processProduct svc (length products))
                     (initialRun emptyWorld)) in
    runScript svc records
    = (Normal tt,
       mkRun (mkWorld (heap (world r1)) (requests (world r1)) (trace (world r1))
                (console (world r1) ++ lines)
                (reportsOf (successfullyTagged r1) (notFound r1)))
         (processed r1) (matched r1) (tagged r1)
         (successfullyTagged r1) (notFound r1)).
Proof.
  unfold runScript, processTopProducts, reconcile.
  destruct (readRows records) as [|p ps] eqn:Hrows.
  - exists []. split; reflexivity.
  - cbn [length Nat.eqb].
    destruct (forOf_steps svc (length (p :: ps)) (p :: ps) (initialRun emptyWorld))
      as (fs&r1&E&_&_&_&_&_&_&_&Fi).
    destruct (generateReports_eq (successfullyTagged r1) (notFound r1) (world r1))
      as (lines&G&Hlines).
    exists lines. split.
    { clear -Hlines. induction Hlines as [|l ls Hl _ IH]; [reflexivity|].
      cbn. destruct l; try contradiction; exact IH. }
    cbv zeta. cbn [length] in E |- *. unfold bind at 1. rewrite E.
    cbv [bind gets id liftW]. rewrite G. cbn [snd]. rewrite Fi. reflexivity.
Qed.

Lemma run_requests_searches svc records :
  List.filter isSearch (trace (world (snd (runScript svc records))))
  = map searchFor (readRows records).
Proof.
  destruct (runScript_loop svc records) as (lines&_&E). cbv zeta in E.
  rewrite E. cbn [snd world trace].
  pose proof (forOf_calls svc (length (readRows records)) (readRows records)
                (initialRun emptyWorld)) as H.
  cbv zeta in H. destruct H as (H1&_). exact H1.
Qed.

(** X9. A run issues one search per row read, in row order, each for
    the query built from that row's title; it issues as many updates as
    rows were matched, every update carrying the marker tag in its tag
    list; and these are all its requests. *)
Theorem run_requests svc records :
  let r := snd (runScript svc records) in
  List.filter isSearch (trace (world r)) = map searchFor (readRows records)
  /\ length (List.filter isUpdate (trace (world r))) = matched r
  /\ Forall updateCarriesTag (trace (world r))
  /\ requests (world r) = length (readRows records) + matched r.
Proof.
  cbv zeta. destruct (runScript_loop svc records) as (lines&_&E). cbv zeta in E.
  rewrite E. cbn [snd world trace requests matched].
  pose proof (forOf_calls svc (length (readRows records)) (readRows records)
                (initialRun emptyWorld)) as H.
  cbv zeta in H. destruct H as (H1&H2&_&H4&_&_&_&_&H9).
  cbn in H1, H2, H4. split; [exact H1|]. split; [lia|].
  split; [apply H9; constructor | lia].
Qed.

(** X10. The counters a run ends with: [processed] is the number of
    rows read, [tagged] is the length of the tagged ledger, and
    [tagged <= matched <= processed]. *)
Theorem run_counters svc records :
  let r := snd (runScript svc records) in
  processed r = length (readRows records)
  /\ tagged r = length (successfullyTagged r)
  /\ tagged r <= matched r
  /\ matched r <= processed r.
Proof.
  cbv zeta. destruct (runScript_loop svc records) as (lines&_&E). cbv zeta in E.
  rewrite E. cbn [snd processed matched tagged successfullyTagged].
  pose proof (forOf_calls svc (length (readRows records)) (readRows records)
                (initialRun emptyWorld)) as H.
  cbv zeta in H. destruct H as (_&_&H3&_&_&H6&H7&H8&_).
  cbn in H3, H6, H7, H8. lia.
Qed.

(** X11. Whatever the run, the files it has written at the end are the
    reports of its final ledgers, the tagged report first: nothing is
    written while rows are processed, and a run that read no row writes
    nothing. *)
Theorem run_reports svc records :
  let r := snd (runScript svc records) in
  files (world r) = reportsOf (successfullyTagged r) (notFound r)
  /\ length (files (world r)) <= 2
  /\ (readRows records = [] -> files (world r) = []).
Proof.
  cbv zeta. destruct (runScript_loop svc records) as (lines&_&E). cbv zeta in E.
  rewrite E. cbn [snd world files successfullyTagged notFound].
  split; [reflexivity|]. split.
  - unfold reportsOf. destruct (successfullyTagged _), (notFound _); cbn; lia.
  - intros ->. reflexivity.
Qed.

(** ** The arrays behind the tagged ledger *)

Lemma forOf_arrays svc total items :
  forall r,
    let r' := snd (forOf items (processProduct svc total) r) in
    length (heap (world r)) <= length (heap (world r'))
    /\ (forall j, j < length (heap (world r)) ->
                  heap (world r') !! j = heap (world r) !! j)
    /\ (Forall (taggedInHeap (heap (world r))) (successfullyTagged r) ->
        Forall (taggedInHeap (heap (world r'))) (successfullyTagged r')).
Proof.
  induction items as [|product items IH]; intros r; cbv zeta.
  - cbn. auto.
  - destruct (processProduct_effects svc total product r)
      as (f&calls&entry&r1&E&_&_&_&_&L&K&St&_&_&_&_&G&_).
    rewrite (forOf_cons _ _ _ _ _ E).
    specialize (IH r1). cbv zeta in IH. destruct IH as (I1&I2&I3).
    split; [lia|]. split.
    + intros j Hj. rewrite I2 by lia. now apply K.
    + intros Hall. apply I3. rewrite St. apply Forall_app. split.
      * eapply List.Forall_impl; [|exact Hall]. intros t Ht. unfold taggedInHeap in *.
        destruct (Product.tags (shopify t)) as [l|]; [|exact I].
        destruct Ht as (ts&Hl&Hin). exists ts. split; [|exact Hin].
        rewrite K; [exact Hl|]. eapply lookup_lt_Some; exact Hl.
      * destruct f; cbn; constructor; [|constructor].
        unfold taggedInHeap. cbn [shopify].
        destruct (Product.tags entry) as [l|] eqn:Hl; [|exact I].
        exact (G eq_refl l eq_refl).
Qed.

(** X13. The entry kept in the tagged ledger shares its [tags] array
    with the entry that [updateProductTags] pushed to, and no later row
    touches that array: at the end of a run the tag array of every
    entry of the tagged ledger holds the marker tag. *)
Theorem run_tagged_entries_hold_tag svc records :
  let r := snd (runScript svc records) in
  Forall (taggedInHeap (heap (world r))) (successfullyTagged r).
Proof.
  cbv zeta. destruct (runScript_loop svc records) as (lines&_&E). cbv zeta in E.
  rewrite E. cbn [snd world heap successfullyTagged].
  apply (forOf_arrays svc (length (readRows records)) (readRows records)
           (initialRun emptyWorld)).
  constructor.
Qed.

(** ** Fates and the service *)

Lemma map_const_repeat {A B} (x : B) (l : list A) :
  map (fun _ => x) l = repeat x (length l).
Proof. induction l as [|a l IH]; simpl; [reflexivity | now rewrite IH]. Qed.

Lemma forOf_fates svc total items :
  forall r,
  exists fs,
    let r' := snd (forOf items (processProduct svc total) r) in
    fates (world r') = fates (world r) ++ fs
    /\ length fs = length items
    /\ (neverNullish svc -> List.filter paced fs = fs)
    /\ (noAnswer svc ->
        fs = repeat FNotFound (length items)
        /\ trace (world r')
           = trace (world r)
               ++ flat_map (fun p => [searchFor p; EvSleep RATE_LIMIT_DELAY]) items
        /\ notFound r' = notFound r ++ items
        /\ successfullyTagged r' = successfullyTagged r
        /\ matched r' = matched r
        /\ heap (world r') = heap (world r)).
Proof.
  induction items as [|product items IH]; intros r.
  - exists []. cbn. rewrite !app_nil_r. auto 10.
  - destruct (processProduct_effects svc total product r)
      as (f&calls&entry&r1&E&F&T&Hcalls&_&_&_&St&N&_&_&_&_&Herr&Hno).
    destruct (IH r1) as (fs&I). cbv zeta in I. destruct I as (I1&I2&I3&I4).
    exists (f :: fs). cbv zeta. rewrite (forOf_cons _ _ _ _ _ E).
    split; [rewrite I1, F, <- app_assoc; reflexivity|].
    split; [cbn; now rewrite I2|].
    split.
    + intros Hnn. cbn [List.filter]. rewrite (I3 Hnn).
      destruct f; try reflexivity. exfalso. destruct Hnn as [Hs Hu].
      destruct (Herr eq_refl) as [H|(i&sent&H)]; [eapply Hs | eapply Hu]; exact H.
    + intros Hna. destruct (I4 Hna) as (J1&J2&J3&J4&J5&J6).
      destruct (Hno (Hna _ _)) as (->&->&Hh).
      cbn [inTagged inNotFound paced] in *. rewrite app_nil_r in St.
      destruct Hcalls as [(_&Hm&_)|(sent&Hc&_)]; [|discriminate].
      split; [cbn; now rewrite J1|].
      split; [rewrite J2, T; cbn; rewrite <- !app_assoc; reflexivity|].
      split; [rewrite J3, N, <- app_assoc; reflexivity|].
      split; [congruence|]. split; [congruence|]. congruence.
Qed.

(** X14. When the service never rejects a call with [null] or
    [undefined], no row ends in the loop's [catch]: every row is tagged,
    fails its tag update or is not found, and the run waits the pacing
    interval once per row read. *)
Theorem run_paced_every_row svc records :
  neverNullish svc ->
  let r := snd (runScript svc records) in
  ~ In FErrored (fates (world r))
  /\ pauses (world r)
     = repeat (EvSleep RATE_LIMIT_DELAY) (length (readRows records)).
Proof.
  intros Hnn. cbv zeta.
  destruct (runScript_fates svc records) as (r&E&L&_&_&Pa&_).
  rewrite E. cbn [snd].
  assert (Hp : List.filter paced (fates (world r)) = fates (world r)).
  { destruct (runScript_loop svc records) as (lines&Hl&E'). cbv zeta in E'.
    rewrite E in E'. injection E' as ->.
    destruct (forOf_fates svc (length (readRows records)) (readRows records)
                (initialRun emptyWorld)) as (fs&I).
    cbv zeta in I. destruct I as (I1&_&I3&_).
    unfold fates at 1 2. cbn [world console]. rewrite fates_app, Hl, app_nil_r.
    rewrite I1. cbn. exact (I3 Hnn). }
  split.
  - intros Hin. rewrite <- Hp in Hin. apply List.filter_In in Hin as [_ H].
    discriminate.
  - rewrite Pa, Hp, map_const_repeat, L. reflexivity.
Qed.

Lemma run_paced_every_row_witness :
  let svc := Samples.catalog [Samples.widgetA] (UpdateResolves ["Tags is invalid"]) in
  let records := [Samples.sheetRow "Widget A" "Acme Co" "Gadgets";
                  Samples.sheetRow "Widget B" "Acme Co" "Gadgets"] in
  neverNullish svc
  /\ pauses (world (snd (runScript svc records)))
     = [EvSleep RATE_LIMIT_DELAY; EvSleep RATE_LIMIT_DELAY].
Proof.
  cbv zeta.
  assert (Hnn : neverNullish
                  (Samples.catalog [Samples.widgetA] (UpdateResolves ["Tags is invalid"])))
    by (split; intros; discriminate).
  split; [exact Hnn|].
  exact (proj2 (run_paced_every_row
                  (Samples.catalog [Samples.widgetA] (UpdateResolves ["Tags is invalid"]))
                  [Samples.sheetRow "Widget A" "Acme Co" "Gadgets";
                   Samples.sheetRow "Widget B" "Acme Co" "Gadgets"] Hnn)).
Defined.

(** X12. When the service has nothing to answer -- every search is
    rejected with an error object or resolves with no entry -- the run
    still goes through every row: it searches for each row and waits
    after each, issues no update, tags nothing, and the not-found ledger
    is the list of the rows read, in order; its one report, if any row
    was read, is the not-found report with all of them. *)
Theorem run_nothing_answered svc records :
  noAnswer svc ->
  let r := snd (runScript svc records) in
  fst (runScript svc records) = Normal tt
  /\ notFound r = readRows records
  /\ successfullyTagged r = []
  /\ matched r = 0
  /\ trace (world r)
     = flat_map (fun p => [searchFor p; EvSleep RATE_LIMIT_DELAY]) (readRows records)
  /\ files (world r)
     = match readRows records with
       | [] => []
       | _ :: _ => [Report.mkFile Report.NotFound (notFoundData (readRows records))]
       end.
Proof.
  intros Hna. cbv zeta.
  destruct (runScript_loop svc records) as (lines&_&E). cbv zeta in E.
  rewrite E. cbn [fst snd world trace files notFound successfullyTagged matched].
  destruct (forOf_fates svc (length (readRows records)) (readRows records)
              (initialRun emptyWorld)) as (fs&I).
  cbv zeta in I. destruct I as (_&_&_&I4).
  destruct (I4 Hna) as (_&J2&J3&J4&J5&_). cbn in J2, J3, J4, J5.
  rewrite J2, J3, J4, J5.
  split; [reflexivity|]. split; [reflexivity|]. split; [reflexivity|].
  split; [reflexivity|]. split; [reflexivity|].
  unfold reportsOf. destruct (readRows records); reflexivity.
Qed.

Lemma run_nothing_answered_witness :
  let svc := Samples.failing (JsError "getaddrinfo ENOTFOUND" false) in
  let records := [Samples.sheetRow "Widget A" "Acme Co" "Gadgets";
                  Samples.sheetRow "Red Mug" "Acme" "Mug"] in
  noAnswer svc
  /\ notFound (snd (runScript svc records))
     = [Row.mk "Widget A" "Acme Co" "Gadgets"; Row.mk "Red Mug" "Acme" "Mug"].
Proof.
  cbv zeta.
  assert (Hna : noAnswer (Samples.failing (JsError "getaddrinfo ENOTFOUND" false)))
    by (intros q n; left; eexists _, _; reflexivity).
  split; [exact Hna|].
  exact (proj1 (proj2 (run_nothing_answered
                         (Samples.failing (JsError "getaddrinfo ENOTFOUND" false))
                         [Samples.sheetRow "Widget A" "Acme Co" "Gadgets";
                          Samples.sheetRow "Red Mug" "Acme" "Mug"] Hna))).
Defined.

(** X4. A run issues no request and waits for nothing exactly when no
    record gives a row, that is when every record lacks a non-empty
    value for one of the three columns; such a run returns at once,
    with empty ledgers and no report. *)
Theorem run_idle_iff_no_rows svc records :
  (trace (world (snd (runScript svc records))) = [] <->
   Forall (fun row => normalizeRow row = None) records)
  /\ (readRows records = [] ->
      runScript svc records = (Normal tt, initialRun emptyWorld)).
Proof.
  assert (Hrows : readRows records = [] <->
                  Forall (fun row => normalizeRow row = None) records).
  { rewrite readRows_omap. induction records as [|row records IH]; cbn.
    - split; [constructor | reflexivity].
    - destruct (normalizeRow row) eqn:E; cbn.
      + split; [discriminate|]. intros H. inversion H; congruence.
      + rewrite IH. split; [now constructor | intros H; now inversion H]. }
  assert (Hidle : readRows records = [] ->
                  runScript svc records = (Normal tt, initialRun emptyWorld)).
  { intros H. unfold runScript, processTopProducts, reconcile. now rewrite H. }
  split; [|exact Hidle].
  rewrite <- Hrows. split.
  - intros Ht. pose proof (run_requests_searches svc records) as Hs.
    rewrite Ht in Hs. cbn in Hs. destruct (readRows records); [reflexivity|discriminate].
  - intros H. now rewrite (Hidle H).
Qed.

(** ** The matcher: what one call does *)

(** X16. Whatever the service answers, [findProduct] issues exactly one
    request, the search for the query built from the title alone
    (vendor and product type are compared afterwards, never sent); it
    leaves every array that existed before the call and every file as
    they were; and it throws only when the call was rejected with
    [null] or [undefined]. *)
Theorem findProduct_one_search svc title vendor productType w :
  trace (snd (findProduct svc title vendor productType w))
  = trace w ++ [EvSearch (searchQueryOf title)]
  /\ requests (snd (findProduct svc title vendor productType w)) = S (requests w)
  /\ (forall l, l < length (heap w) ->
        heap (snd (findProduct svc title vendor productType w)) !! l = heap w !! l)
  /\ files (snd (findProduct svc title vendor productType w)) = files w
  /\ (forall e, fst (findProduct svc title vendor productType w) = Throw e ->
        onSearch svc (searchQueryOf title) (requests w) = SearchRejects JsNullish).
Proof.
  destruct (findProduct_effects svc title vendor productType w)
    as (c&w'&new&E&_&T&R&Fi&H&Hc&_).
  rewrite E. cbn [fst snd].
  split; [exact T|]. split; [exact R|].
  split; [intros l Hl; rewrite H; now apply lookup_app_l|].
  split; [exact Fi|].
  intros e ->. apply Hc.
Qed.

(** ** The time stamp *)

Section Splitting.

Local Arguments String.append !_ _ / : simpl nomatch.

Lemma append_empty_r s : s +:+ EmptyString = s.
Proof. induction s as [|a s IH]; cbn; [reflexivity | now rewrite IH]. Qed.

Lemma append_assoc' (s1 s2 s3 : string) :
  (s1 +:+ s2) +:+ s3 = s1 +:+ (s2 +:+ s3).
Proof. induction s1 as [|a s1 IH]; cbn; [reflexivity | now rewrite IH]. Qed.

Lemma startsWith_app p rest : startsWith (p +:+ rest) p = true.
Proof.
  induction p as [|a p IH]; cbn; [reflexivity|].
  now rewrite Ascii.eqb_refl, IH.
Qed.

Lemma lacks_app c s1 s2 : lacks c (s1 +:+ s2) = lacks c s1 && lacks c s2.
Proof.
  induction s1 as [|a s1 IH]; cbn; [reflexivity|].
  now rewrite IH, andb_assoc.
Qed.

Lemma digits_lacks c s :
  (Nat.leb 48 (nat_of_ascii c) && Nat.leb (nat_of_ascii c) 57) = false ->
  digits s = true -> lacks c s = true.
Proof.
  intros Hc. induction s as [|a s IH]; cbn [digits lacks]; [reflexivity|].
  intros H. rewrite !andb_true_iff in H. destruct H as [[H1 H2] H3].
  rewrite (IH H3), andb_true_r. apply negb_true_iff.
  destruct (Ascii.eqb_spec a c) as [->|]; [|reflexivity].
  rewrite H1, H2 in Hc. discriminate.
Qed.

Lemma splitGo_piece s0 t cur a rest :
  lacks s0 a = true ->
  splitGo (String s0 t) 0 cur (a +:+ rest)
  = splitGo (String s0 t) 0 (cur +:+ a) rest.
Proof.
  revert cur. induction a as [|c a IH]; intros cur H.
  - cbn. now rewrite append_empty_r.
  - cbn in H. apply andb_true_iff in H as [Hc Ha]. apply negb_true_iff in Hc.
    cbn [String.append splitGo startsWith]. rewrite Hc. cbn [andb].
    rewrite (IH _ Ha), append_assoc'. reflexivity.
Qed.

Lemma splitGo_skip sep x cur rest :
  splitGo sep (String.length x) cur (x +:+ rest) = splitGo sep 0 cur rest.
Proof.
  induction x as [|c x IH]; cbn [String.length String.append].
  - reflexivity.
  - destruct rest as [|d rest']; cbn [splitGo]; exact IH.
Qed.

Lemma splitGo_sep s0 t cur rest :
  splitGo (String s0 t) 0 cur (String s0 t +:+ rest)
  = cur :: splitGo (String s0 t) 0 EmptyString rest.
Proof.
  change (String s0 t +:+ rest) with (String s0 (t +:+ rest)).
  cbn [splitGo].
  change (String s0 (t +:+ rest)) with (String s0 t +:+ rest).
  rewrite startsWith_app. cbn [String.length Nat.sub].
  rewrite Nat.sub_0_r. now rewrite splitGo_skip.
Qed.

Lemma splitGo_last s0 t cur a :
  lacks s0 a = true ->
  splitGo (String s0 t) 0 cur a = [cur +:+ a].
Proof.
  intros H. rewrite <- (append_empty_r a) at 1.
  rewrite splitGo_piece by exact H. reflexivity.
Qed.

(** Two pieces around one separator. *)
Lemma split_two s0 t a b :
  lacks s0 a = true -> lacks s0 b = true ->
  split (String s0 t) (a +:+ String s0 t +:+ b) = [a; b].
Proof.
  intros Ha Hb. unfold split.
  rewrite splitGo_piece by exact Ha. rewrite splitGo_sep.
  rewrite splitGo_last by exact Hb. reflexivity.
Qed.

Lemma split_three s0 t a b c :
  lacks s0 a = true -> lacks s0 b = true -> lacks s0 c = true ->
  split (String s0 t) (a +:+ String s0 t +:+ b +:+ String s0 t +:+ c) = [a; b; c].
Proof.
  intros Ha Hb Hc. unfold split.
  rewrite splitGo_piece by exact Ha. rewrite splitGo_sep.
  rewrite splitGo_piece by exact Hb. rewrite splitGo_sep.
  rewrite splitGo_last by exact Hc. reflexivity.
Qed.

Lemma split_one s0 t a :
  lacks s0 a = true -> split (String s0 t) a = [a].
Proof. intros Ha. unfold split. now rewrite splitGo_last. Qed.

(** X15. From a local time written [MM/DD/YYYY, HH:MM] with decimal
    fields, the time stamp of the report names is
    [YYYY-MM-DD_HH-MM]; from a string with the date alone, [time] is
    undefined and computing the stamp throws. *)
Theorem formattedTimestamp_fields month day year hour minute :
  digits month = true -> digits day = true -> digits year = true ->
  digits hour = true -> digits minute = true ->
  formattedTimestamp
    (month +:+ "/" +:+ day +:+ "/" +:+ year +:+ ", " +:+ hour +:+ ":" +:+ minute)
  = Normal (year +:+ "-" +:+ month +:+ "-" +:+ day +:+ "_" +:+ hour +:+ "-" +:+ minute)
  /\ formattedTimestamp (month +:+ "/" +:+ day +:+ "/" +:+ year)
     = Throw TypeError_nullish.
Proof.
  intros Hm Hd Hy Hh Hi.
  assert (Lc : forall s, digits s = true -> lacks "," s = true)
    by (intros s; now apply digits_lacks).
  assert (Ls : forall s, digits s = true -> lacks "/" s = true)
    by (intros s; now apply digits_lacks).
  assert (Lk : forall s, digits s = true -> lacks ":" s = true)
    by (intros s; now apply digits_lacks).
  assert (Hdate : lacks "," (month +:+ "/" +:+ day +:+ "/" +:+ year) = true).
  { rewrite !lacks_app, (Lc _ Hm), (Lc _ Hd), (Lc _ Hy). reflexivity. }
  assert (Htime : lacks "," (hour +:+ ":" +:+ minute) = true).
  { rewrite !lacks_app, (Lc _ Hh), (Lc _ Hi). reflexivity. }
  split.
  - unfold formattedTimestamp.
    replace (month +:+ "/" +:+ day +:+ "/" +:+ year +:+ ", " +:+ hour +:+ ":" +:+ minute)
      with ((month +:+ "/" +:+ day +:+ "/" +:+ year) +:+ ", " +:+ (hour +:+ ":" +:+ minute))
      by (rewrite !append_assoc'; reflexivity).
    rewrite (split_two "," " " _ _ Hdate Htime).
    rewrite (split_three "/" EmptyString month day year (Ls _ Hm) (Ls _ Hd) (Ls _ Hy)).
    rewrite (split_two ":" EmptyString hour minute (Lk _ Hh) (Lk _ Hi)).
    reflexivity.
  - unfold formattedTimestamp.
    rewrite (split_one "," " " _ Hdate). reflexivity.
Qed.

End Splitting.

Lemma formattedTimestamp_fields_witness :
  digits "03" = true /\ digits "15" = true /\ digits "2024" = true
  /\ digits "14" = true /\ digits "05" = true
  /\ formattedTimestamp "03/15/2024, 14:05" = Normal "2024-03-15_14-05".
Proof.
  repeat (split; [reflexivity|]).
  exact (proj1 (formattedTimestamp_fields "03" "15" "2024" "14" "05"
                  eq_refl eq_refl eq_refl eq_refl eq_refl)).
Defined.

(** ** The row normalizer: column order *)

Lemma find_unique_perm {A} (p : A -> bool) (l l' : list A) :
  (forall x y, In x l -> In y l -> p x = true -> p y = true -> x = y) ->
  Permutation l l' ->
  List.find p l = List.find p l'.
Proof.
  intros Hu Hp.
  destruct (List.find p l) as [x|] eqn:E.
  - apply List.find_some in E as [Hx Hpx].
    destruct (List.find p l') as [y|] eqn:E'.
    + apply List.find_some in E' as [Hy Hpy].
      f_equal. apply Hu; try assumption.
      eapply Permutation_in; [symmetry; exact Hp | exact Hy].
    + exfalso. pose proof (List.find_none _ _ E' x) as Hn.
      rewrite Hn in Hpx; [discriminate|].
      eapply Permutation_in; [exact Hp | exact Hx].
  - destruct (List.find p l') as [y|] eqn:E'; [|reflexivity].
    apply List.find_some in E' as [Hy Hpy].
    pose proof (List.find_none _ _ E y) as Hn.
    rewrite Hn in Hpy; [discriminate|].
    eapply Permutation_in; [symmetry; exact Hp | exact Hy].
Qed.

Lemma NoDup_keys_unique (row : RowObj) k x y :
  List.NoDup (Object_keys row) ->
  In x row -> In y row -> fst x = k -> fst y = k -> x = y.
Proof.
  unfold Object_keys. induction row as [|[k0 v0] row IH]; cbn; [tauto|].
  intros Hnd. apply List.NoDup_cons_iff in Hnd as [Hnin Hnd].
  intros [<-|Hx] [<-|Hy] Hkx Hky; cbn in *.
  - reflexivity.
  - exfalso. apply Hnin. replace k0 with (fst y) by congruence. now apply in_map.
  - exfalso. apply Hnin. replace k0 with (fst x) by congruence. now apply in_map.
  - now apply IH.
Qed.

Lemma located_perm word (row row' : RowObj) :
  List.NoDup (Object_keys row) ->
  oneHeaderFor word row ->
  Permutation row row' ->
  located word row = located word row'.
Proof.
  intros Hnd Hone Hp. unfold located.
  assert (Hk : findKey word row = findKey word row').
  { unfold findKey. apply find_unique_perm.
    - intros h1 h2 H1 H2 P1 P2. now apply Hone.
    - unfold Object_keys. now apply Permutation_map. }
  rewrite <- Hk. destruct (findKey word row) as [k|]; [|reflexivity].
  cbn [valueAt]. destruct (truthy k); [|reflexivity].
  unfold getProp. rewrite (find_unique_perm _ row row'); [reflexivity| |exact Hp].
  intros x y Hx Hy Px Py. apply String.eqb_eq in Px, Py.
  eapply NoDup_keys_unique; eassumption.
Qed.

(** X17. The order of the columns does not matter when each of the
    three words occurs in one header only: two records with the same
    cells under the same (distinct) headers, in any order, give the
    same row or are both skipped. *)
Theorem normalizeRow_column_order (row row' : RowObj) :
  List.NoDup (Object_keys row) ->
  oneHeaderFor "title" row -> oneHeaderFor "vendor" row -> oneHeaderFor "type" row ->
  Permutation row row' ->
  normalizeRow row' = normalizeRow row.
Proof.
  intros Hnd Ht Hv Hy Hp. rewrite !normalizeRow_located.
  rewrite <- (located_perm "title" row row' Hnd Ht Hp).
  rewrite <- (located_perm "vendor" row row' Hnd Hv Hp).
  rewrite <- (located_perm "type" row row' Hnd Hy Hp).
  reflexivity.
Qed.

Lemma normalizeRow_column_order_witness :
  normalizeRow [("Product type", "Mug"); ("Product title", "Red Mug");
                ("Price", "12"); ("Product vendor", "Acme")]
  = normalizeRow [("Product title", "Red Mug"); ("Product vendor", "Acme");
                  ("Product type", "Mug"); ("Price", "12")].
Proof.
  apply (normalizeRow_column_order
           [("Product title", "Red Mug"); ("Product vendor", "Acme");
            ("Product type", "Mug"); ("Price", "12")]
           [("Product type", "Mug"); ("Product title", "Red Mug");
            ("Price", "12"); ("Product vendor", "Acme")]).
  - repeat constructor; cbn; intuition discriminate.
  - intros h1 h2 H1 H2 P1 P2. cbn in H1, H2.
    destruct H1 as [<-|[<-|[<-|[<-|[]]]]]; destruct H2 as [<-|[<-|[<-|[<-|[]]]]];
      try reflexivity; vm_compute in P1, P2; discriminate.
  - intros h1 h2 H1 H2 P1 P2. cbn in H1, H2.
    destruct H1 as [<-|[<-|[<-|[<-|[]]]]]; destruct H2 as [<-|[<-|[<-|[<-|[]]]]];
      try reflexivity; vm_compute in P1, P2; discriminate.
  - intros h1 h2 H1 H2 P1 P2. cbn in H1, H2.
    destruct H1 as [<-|[<-|[<-|[<-|[]]]]]; destruct H2 as [<-|[<-|[<-|[<-|[]]]]];
      try reflexivity; vm_compute in P1, P2; discriminate.
  - apply Permutation_sym.
    apply (perm_trans (l' := [("Product title", "Red Mug"); ("Product type", "Mug");
                              ("Price", "12"); ("Product vendor", "Acme")]));
      [apply perm_swap|].
    apply perm_skip.
    apply (perm_trans (l' := [("Product type", "Mug"); ("Product vendor", "Acme");
                              ("Price", "12")])).
    + apply perm_skip. apply perm_swap.
    + apply perm_trans with (l' := [("Product vendor", "Acme"); ("Product type", "Mug");
                                    ("Price", "12")]); [apply perm_swap | reflexivity].
Defined.

(** ** The gid of a report row *)

Lemma replaceFirst_absent pat by_ s :
  includes s pat = false -> replaceFirst pat by_ s = s.
Proof.
  induction s as [|a s IH]; cbn [includes replaceFirst]; intros H;
    apply orb_false_iff in H as [H1 H2]; rewrite H1; [reflexivity|].
  now rewrite (IH H2).
Qed.

(** X18. The gid of a tagged row is the entry's id with the first
    occurrence of [gid://shopify/Product/] cut out: ids that do not
    hold that text are reported as they are. *)
Theorem successData_gid_without_prefix (taggedProducts : list TaggedProduct) :
  Forall (fun t => includes (Product.id (shopify t)) gidPrefix = false)
    taggedProducts ->
  map Report.gid (successData taggedProducts)
  = map (fun t => Product.id (shopify t)) taggedProducts.
Proof.
  induction 1 as [|t ts Ht _ IH]; [reflexivity|].
  cbn [successData map Report.gid]. rewrite (replaceFirst_absent _ _ _ Ht).
  f_equal. exact IH.
Qed.

Lemma successData_gid_without_prefix_witness :
  includes "7001" gidPrefix = false
  /\ map Report.gid
       (successData [mkTagged (Product.mk "7001" "Red Mug" "Acme" "Mug" TagsOther)
                       (Row.mk "Red Mug" "Acme" "Mug")])
     = ["7001"].
Proof.
  split; [reflexivity|].
  apply (successData_gid_without_prefix
           [mkTagged (Product.mk "7001" "Red Mug" "Acme" "Mug" TagsOther)
              (Row.mk "Red Mug" "Acme" "Mug")]).
  repeat constructor.
Defined.

(** ** The ledgers and what the calls returned *)

(** One turn of the loop against what [findProduct] and
    [updateProductTags] return in it. *)
Lemma processProduct_outcome svc total product r :
  let r' := snd (processProduct svc total product r) in
  fates (world r') = fates (world r) ++ [rowFate svc total product r]
  /\ (fst (matchOf svc total product r) = Normal None ->
      notFound r' = notFound r ++ [product]
      /\ successfullyTagged r' = successfullyTagged r)
  /\ (forall e, fst (matchOf svc total product r) = Throw e ->
      notFound r' = notFound r ++ [product]
      /\ successfullyTagged r' = successfullyTagged r)
  /\ (forall found, fst (matchOf svc total product r) = Normal (Some found) ->
      (fst (updateOf svc total product r found) = Normal true ->
       successfullyTagged r' = successfullyTagged r ++ [mkTagged found product]
       /\ notFound r' = notFound r)
      /\ (fst (updateOf svc total product r found) = Normal false ->
          successfullyTagged r' = successfullyTagged r
          /\ notFound r' = notFound r)
      /\ (forall e, fst (updateOf svc total product r found) = Throw e ->
          notFound r' = notFound r ++ [product]
          /\ successfullyTagged r' = successfullyTagged r)).
Proof.
  cbv zeta. unfold rowFate, updateOf.
  destruct (matchOf svc total product r) as [c w1] eqn:E1. cbn [fst snd].
  unfold matchOf in E1. cbv [log modify] in E1. cbn [snd] in E1.
  destruct (findProduct_frame svc (Row.title product) (Row.vendor product)
              (Row.productType product)
              (mkWorld (heap (world r)) (requests (world r)) (trace (world r))
                 (console (world r)
                    ++ [LogProcessing (S (processed r)) total (Row.title product)])
                 (files (world r))))
    as (c'&w1'&E1'&F1&_&_&Th1).
  rewrite E1 in E1'. injection E1' as <- <-.
  unfold fates in F1. cbn [console] in F1. rewrite omap_app in F1. cbn in F1.
  rewrite app_nil_r in F1.
  destruct c as [[found|]|err].
  - destruct (updateProductTags svc found
                (snd (log (LogFound (Row.title product)) w1))) as [c2 w2] eqn:E2.
    cbn [fst].
    assert (Hrest : forall found',
               Normal (Some found) = Normal (Some found') ->
               updateProductTags svc found'
                 (snd (log (LogFound (Row.title product)) w1)) = (c2, w2))
      by (intros found' [= <-]; exact E2).
    cbv [log modify] in E2. cbn [snd] in E2.
    destruct (updateProductTags_fate svc found
                (mkWorld (heap w1) (requests w1) (trace w1)
                   (console w1 ++ [LogFound (Row.title product)]) (files w1)))
      as (c2'&w2'&sent&E2'&_&_&Hc).
    rewrite E2 in E2'. injection E2' as <- <-.
    unfold fates in Hc. cbn [console] in Hc. rewrite omap_app in Hc. cbn in Hc.
    rewrite app_nil_r, F1 in Hc.
    assert (Hrun : processProduct svc total product r
                   = match c2 with
                     | Normal true =>
                         (Normal tt,
                          mkRun (mkWorld (heap w2) (requests w2)
                                   (trace w2 ++ [EvSleep RATE_LIMIT_DELAY])
                                   ((console w2 ++ [LogTagged (Row.title product)])
                                      ++ [LogProgress (S (processed r)) total
                                            (S (matched r)) (S (tagged r))])
                                   (files w2))
                            (S (processed r)) (S (matched r)) (S (tagged r))
                            (successfullyTagged r ++ [mkTagged found product])
                            (notFound r))
                     | Normal false =>
                         (Normal tt,
                          mkRun (mkWorld (heap w2) (requests w2)
                                   (trace w2 ++ [EvSleep RATE_LIMIT_DELAY])
                                   (console w2
                                      ++ [LogProgress (S (processed r)) total
                                            (S (matched r)) (tagged r)])
                                   (files w2))
                            (S (processed r)) (S (matched r)) (tagged r)
                            (successfullyTagged r) (notFound r))
                     | Throw _ =>
                         (Normal tt,
                          mkRun (mkWorld (heap w2) (requests w2) (trace w2)
                                   ((console w2
                                       ++ [LogErrorProcessing (Row.title product)
                                             "Cannot read properties of undefined"])
                                      ++ [LogProgress (S (processed r)) total
                                            (S (matched r)) (tagged r)])
                                   (files w2))
                            (S (processed r)) (S (matched r)) (tagged r)
                            (successfullyTagged r) (notFound r ++ [product]))
                     end).
    { run_driver. rewrite E1. run_driver. rewrite E2.
      destruct Hc as [[-> _]|[[-> _]|[-> _]]]; reflexivity. }
    rewrite Hrun.
    destruct Hc as [[-> F2]|[[-> F2]|[-> F2]]]; cbn [snd world console
      successfullyTagged notFound]; unfold fates; cbn [console];
      rewrite ?omap_app, F2; cbn [omap list_omap fateOf app];
      rewrite <- ?app_assoc, ?app_nil_r.
    + split; [reflexivity|]. split; [discriminate|]. split; [discriminate|].
      intros found' Hf. rewrite (Hrest found' Hf). injection Hf as <-. cbn [fst].
      split; [intros _; split; reflexivity|].
      split; discriminate.
    + split; [reflexivity|]. split; [discriminate|]. split; [discriminate|].
      intros found' Hf. rewrite (Hrest found' Hf). injection Hf as <-. cbn [fst].
      split; [discriminate|].
      split; [intros _; split; reflexivity | discriminate].
    + split; [reflexivity|]. split; [discriminate|]. split; [discriminate|].
      intros found' Hf. rewrite (Hrest found' Hf). injection Hf as <-. cbn [fst].
      split; [discriminate|]. split; [discriminate|].
      intros e _. split; reflexivity.
  - assert (Hrun : processProduct svc total product r
                   = (Normal tt,
                      mkRun (mkWorld (heap w1) (requests w1)
                               (trace w1 ++ [EvSleep RATE_LIMIT_DELAY])
                               ((console w1 ++ [LogNotFound (Row.title product)])
                                  ++ [LogProgress (S (processed r)) total
                                        (matched r) (tagged r)])
                               (files w1))
                        (S (processed r)) (matched r) (tagged r)
                        (successfullyTagged r) (notFound r ++ [product]))).
    { run_driver. rewrite E1. reflexivity. }
    rewrite Hrun. cbn [fst snd world console successfullyTagged notFound].
    unfold fates. cbn [console]. rewrite !omap_app, F1.
    cbn [omap list_omap fateOf app]. rewrite <- ?app_assoc, ?app_nil_r.
    split; [reflexivity|]. split; [intros _; split; reflexivity|].
    split; discriminate.
  - rewrite (Th1 err eq_refl) in E1.
    assert (Hrun : processProduct svc total product r
                   = (Normal tt,
                      mkRun (mkWorld (heap w1) (requests w1) (trace w1)
                               ((console w1
                                   ++ [LogErrorProcessing (Row.title product)
                                         "Cannot read properties of undefined"])
                                  ++ [LogProgress (S (processed r)) total
                                        (matched r) (tagged r)])
                               (files w1))
                        (S (processed r)) (matched r) (tagged r)
                        (successfullyTagged r) (notFound r ++ [product]))).
    { run_driver. rewrite E1. reflexivity. }
    rewrite Hrun. cbn [fst snd world console successfullyTagged notFound].
    unfold fates. cbn [console]. rewrite !omap_app, F1.
    cbn [omap list_omap fateOf app]. rewrite <- ?app_assoc, ?app_nil_r.
    split; [reflexivity|]. split; [discriminate|].
    split; [intros e _; split; reflexivity | discriminate].
Qed.

Lemma forOf_loopFates svc total items :
  forall r,
    fates (world (snd (forOf items (processProduct svc total) r)))
    = fates (world r) ++ loopFates svc total items r.
Proof.
  induction items as [|product items IH]; intros r.
  - cbn. now rewrite app_nil_r.
  - destruct (processProduct_step svc total product r) as (f&calls&entry&r1&E&_).
    pose proof (processProduct_outcome svc total product r) as H.
    cbv zeta in H. destruct H as (H&_).
    rewrite (forOf_cons _ _ _ _ _ E). cbn [loopFates].
    rewrite E in H |- *. cbn [snd] in H |- *.
    rewrite IH, H, <- app_assoc. reflexivity.
Qed.

(** C1, amended.  In each turn of the loop the row goes to the tagged
    ledger, with the entry found, exactly when [findProduct] returned an
    entry and [updateProductTags] returned [true] for it; to the
    not-found ledger when [findProduct] returned nothing or one of the
    two calls threw; and to neither ledger when an entry was found and
    [updateProductTags] returned [false].  So every run completes with
    one terminal state per row read, decided by what the two calls
    returned; the tagged ledger holds, in order, the rows tagged and the
    not-found ledger the rows not found or errored; no terminal state
    puts a row in both; and the two ledgers together hold as many rows
    as were read, less the rows whose tag update failed. *)
Theorem ledger_accounting svc :
  (forall total product r,
      fates (world (snd (processProduct svc total product r)))
      = fates (world r) ++ [rowFate svc total product r]
      /\ (fst (matchOf svc total product r) = Normal None ->
          notFound (snd (processProduct svc total product r))
          = notFound r ++ [product]
          /\ successfullyTagged (snd (processProduct svc total product r))
             = successfullyTagged r)
      /\ (forall e, fst (matchOf svc total product r) = Throw e ->
          notFound (snd (processProduct svc total product r))
          = notFound r ++ [product]
          /\ successfullyTagged (snd (processProduct svc total product r))
             = successfullyTagged r)
      /\ (forall found, fst (matchOf svc total product r) = Normal (Some found) ->
          (fst (updateOf svc total product r found) = Normal true ->
           successfullyTagged (snd (processProduct svc total product r))
           = successfullyTagged r ++ [mkTagged found product]
           /\ notFound (snd (processProduct svc total product r)) = notFound r)
          /\ (fst (updateOf svc total product r found) = Normal false ->
              successfullyTagged (snd (processProduct svc total product r))
              = successfullyTagged r
              /\ notFound (snd (processProduct svc total product r)) = notFound r)
          /\ (forall e, fst (updateOf svc total product r found) = Throw e ->
              notFound (snd (processProduct svc total product r))
              = notFound r ++ [product]
              /\ successfullyTagged (snd (processProduct svc total product r))
                 = successfullyTagged r)))
  /\ (forall records,
        let products := readRows records in
        let r := snd (runScript svc records) in
        let fs := loopFates svc (length products) products (initialRun emptyWorld) in
        fst (runScript svc records) = Normal tt
        /\ fates (world r) = fs
        /\ length fs = length products
        /\ map originalData (successfullyTagged r) = rowsWith inTagged products fs
        /\ notFound r = rowsWith inNotFound products fs
        /\ (forall f, inTagged f = true -> inNotFound f = false)
        /\ (forall f, inTagged f = false /\ inNotFound f = false <-> f = FTagFailed)
        /\ length (successfullyTagged r) + length (notFound r)
             + length (List.filter tagFailed fs)
           = length products).
Proof.
  split.
  - intros total product r. exact (processProduct_outcome svc total product r).
  - intros records. cbv zeta.
    destruct (runScript_fates svc records) as (r&E&L&S&N&_&_).
    assert (Hf : fates (world r)
                 = loopFates svc (length (readRows records)) (readRows records)
                     (initialRun emptyWorld)).
    { destruct (runScript_loop svc records) as (lines&Hl&E'). cbv zeta in E'.
      rewrite E in E'. injection E' as ->.
      unfold fates at 1. cbn [world console]. rewrite fates_app, Hl, app_nil_r.
      rewrite forOf_loopFates. reflexivity. }
    rewrite E. cbn [fst snd]. rewrite <- Hf.
    split; [reflexivity|]. split; [reflexivity|].
    split; [exact L|]. split; [exact S|]. split; [exact N|].
    split; [intros f; destruct f; simpl; congruence|].
    split.
    { intros f; destruct f; simpl; split; try reflexivity; try discriminate;
        try (intros [? ?]; discriminate); auto. }
    rewrite <- (length_map originalData), S, N. now apply rowsWith_count.
Qed.

(** ** Pacing *)




